(** * BoxModel: a box model of a subglacial plume

    A shallow embedding of the numeric core of [BoxModel.ipynb]
    ([freeze], [basalmelting], [boxmodel], [sens_study], [variation]) and the
    properties its specification states about it.

    The notebook computes on Python floats and NumPy float64 scalars.  The
    functions are embedded once, over an interface of the arithmetic
    operations they use ([Arith], [Trig], [NaN]), and read at three carriers:

    - [R], exact real arithmetic: the reading of the statements about the
      formulas themselves (linearity, roots of the quadratic, signs), where
      rounding is left out;
    - [float], IEEE 754 binary64 as Rocq's kernel implements it: the values
      the interpreter computes, with infinities and not-a-number;
    - [pyval], binary64 values tagged as Python [float] or NumPy [float64],
      or a raised exception: the reading of the statements about errors,
      since the two kinds of scalars differ exactly there.

    Statements about control flow and data flow are proved for every
    carrier.  On [pyval] an exception is a value that later operations
    pass on; the functions [call_boxmodel], [call_variation] and their
    callees run the statements of the source in order and stop at the
    first that raises: the reading of the statements about what a call
    returns and what it raises.

    The last sections prove what the code shows beyond its specification:
    when [variation] fails and what it returns on a fully masked grid, the
    sign, the monotonicity and the bounds of the melt rate, the bounds and
    the fixed points of the plume update, the invariants of the loops, and
    how not-a-number inputs propagate. *)

From Stdlib Require Import Floats.
From Stdlib Require Uint63.
From Stdlib Require Import ZArith Reals Lra Psatz.
From stdpp Require Import base option list strings.

(** A decimal float literal denotes the nearest binary64 value, as it does
    in Python. *)
Set Warnings "-inexact-float".

(** ** The arithmetic the notebook uses *)

(** The operations of the notebook's scalars.  [of_int] is the promotion of
    a Python [int] operand to a float, [fpow2 x] is [x ** 2], [np_sqrt] is
    [np.sqrt] and [fge] is [>=]. *)
Class Arith (F : Type) : Type := {
  of_int : Z -> F;
  fadd : F -> F -> F;
  fsub : F -> F -> F;
  fmul : F -> F -> F;
  fdiv : F -> F -> F;
  fneg : F -> F;
  fpow2 : F -> F;
  np_sqrt : F -> F;
  fge : F -> F -> bool
}.

(** [np.sin] and [np.arctan], used once, for the slope of the plume. *)
Class Trig (F : Type) : Type := {
  np_sin : F -> F;
  np_arctan : F -> F
}.

(** [np.nan], the no-data value. *)
Class NaN (F : Type) : Type := {
  np_nan : F
}.

Declare Scope num_scope.
Delimit Scope num_scope with num.
Notation "x + y" := (fadd x y) : num_scope.
Notation "x - y" := (fsub x y) : num_scope.
Notation "x * y" := (fmul x y) : num_scope.
Notation "x / y" := (fdiv x y) : num_scope.
Notation "- x" := (fneg x) : num_scope.
Notation "x >=? y" := (fge x y) (at level 70, no associativity) : num_scope.
Notation "# n" := (of_int n%Z) (at level 9, n at level 9, format "# n") : num_scope.

(** A decimal literal [m e-k] of the source: the quotient of two integers
    that binary64 holds exactly, so that on [float] one correctly rounded
    division yields the double nearest to the decimal, which is the value
    Python reads the literal as. *)
Definition dec {F : Type} `{Arith F} (m : Z) (k : Z) : F :=
  (#m / #(10 ^ k))%num.

Module BoxModel.

Section Model.

Context {F : Type} {AF : Arith F}.

Local Open Scope num_scope.

(** *** Constants.  A Python [int] stays an integer here, and is promoted
    ([#]) where a float expression uses it. *)

Definition y1 : F := - dec 573 4.      (* -5.73e-2 *)
Definition y2 : F := dec 832 4.        (* 8.32e-2 *)
Definition y3 : F := dec 761 6.        (* 7.61e-4 *)
Definition c_i : Z := 2009.
Definition c_p : Z := 3974.
Definition L : F := #334000.           (* 3.34e5 *)
Definition St_T : F := dec 11 4.       (* 1.1e-3 *)
Definition St_S : F := dec 31 6.       (* 3.1e-5 *)
Definition E_0 : F := dec 36 3.        (* 3.6e-2 *)

(** *** Boundary conditions *)

Definition T_i : Z := -20.
Definition h : Z := 10.
Definition l : Z := 80000.
Definition w : Z := 20000.
Definition z_g : Z := -600.
Definition u : F := dec 2 1.           (* 0.2 *)
Definition A : Z := w * l.
Definition V : Z := A * h.
Definition gamma_T : F := St_T * u.
Definition gamma_S : F := St_S * u.

(** [sin_alpha = np.sin(np.arctan(np.abs(z_g) / l))] *)
Definition sin_alpha {TF : Trig F} : F :=
  np_sin (np_arctan (#(Z.abs z_g) / #l)).

Definition s_yr : Z := 3600 * 24 * 365.

(** *** freeze *)

Definition freeze (S z_b : F) : F :=
  let T := y1 * S + y2 + y3 * z_b in
  T.

(** *** basalmelting *)

(** The dictionary [basalmelting] returns, keys ["S_b"], ["T_b"], ["v_b"]. *)
Record melt : Type := Melt {
  bm_S_b : F;
  bm_T_b : F;
  bm_v_b : F
}.

(** The coefficients [a], [b], [c] of the quadratic, as the first three
    assignments of [basalmelting] build them. *)
Definition bm_a : F :=
  y1 * (gamma_T - gamma_S * #c_i / #c_p).

Definition bm_b (S T z_b : F) : F :=
  gamma_T * (y2 + y3 * z_b - T)
  + gamma_S / #c_p * (#c_i * (y1 * S - y2 - y3 * z_b + #T_i) - L).

Definition bm_c (S z_b : F) : F :=
  (gamma_S * S) / #c_p * (#c_i * (y3 * z_b - #T_i) + L).

(** The radicand [b ** 2 - 4 * a * c]. *)
Definition bm_disc (a b c : F) : F :=
  fpow2 b - #4 * a * c.

Definition basalmelting (S T z_b : F) : melt :=
  let a := bm_a in
  let b := bm_b S T z_b in
  let c := bm_c S z_b in
  let S_b := - (b + np_sqrt (bm_disc a b c)) / (#2 * a) in
  let T_b := y1 * S_b + y2 + y3 * z_b in
  let v_b := (gamma_S * (S - S_b)) / S_b in
  {| bm_S_b := S_b;
     bm_T_b := T_b;
     bm_v_b := v_b * #s_yr |}.

(** *** The box model *)

Context {TF : Trig F}.

Definition S_g : Z := 0.
Definition T_g : F := freeze #S_g #z_g.
Definition v_e : F := E_0 * u * sin_alpha.
Definition Q_a : F := v_e * #A.

Definition dt : Z := 10000.
Definition N : nat := 200.

(** [V/dt]: the true division of two Python integers. *)
Definition V_dt : F := #V / #dt.

Context {NF : NaN F}.

(** The local variables of [boxmodel] that the loop reads and writes: the
    plume state [S], [T] and the seven arrays. *)
Record box_frame : Type := BoxFrame {
  bx_S : F;
  bx_T : F;
  v_b_n : list F;
  S_n : list F;
  T_n : list F;
  Q_m_n : list F;
  Q_out_n : list F;
  S_b_n : list F;
  T_b_n : list F
}.

(** The dictionary [boxmodel] returns, keys ["v_b"], ["S"], ["T"], ["S_b"],
    ["T_b"], ["Q_m"], ["Q_out"]. *)
Record box_result : Type := BoxResult {
  box_v_b : list F;
  box_S : list F;
  box_T : list F;
  box_S_b : list F;
  box_T_b : list F;
  box_Q_m : list F;
  box_Q_out : list F
}.

(** The statements before the loop. *)
Definition boxmodel_init (z_b : F) : box_frame :=
  let S := #30 in
  let T := freeze S z_b in
  {| bx_S := S; bx_T := T;
     v_b_n := replicate N np_nan;
     S_n := replicate N np_nan;
     T_n := replicate N np_nan;
     Q_m_n := replicate N np_nan;
     Q_out_n := replicate N np_nan;
     S_b_n := replicate N np_nan;
     T_b_n := replicate N np_nan |}.

(** One pass through the body of the loop, at index [i]. *)
Definition boxmodel_body (S_a T_a Q_g z_b : F) (fr : box_frame) (i : nat)
  : box_frame :=
  let S := bx_S fr in
  let T := bx_T fr in
  let bmelt := basalmelting S T z_b in
  let S_b := bm_S_b bmelt in
  let T_b := bm_T_b bmelt in
  let v_b := (gamma_S * (S - S_b)) / S_b in
  let Q_m := v_b * #A in
  let Q := - (Q_g + Q_m + Q_a) in
  let S := (Q_a * S_a + V_dt * S) / (V_dt - Q) in
  let T := (Q_a * T_a + Q_g * T_g + (Q_m + #A * gamma_T) * T_b + V_dt * T)
           / (V_dt - Q + #A * gamma_T) in
  {| bx_S := S; bx_T := T;
     v_b_n := <[i := v_b]> (v_b_n fr);
     S_n := <[i := S]> (S_n fr);
     T_n := <[i := T]> (T_n fr);
     S_b_n := <[i := S_b]> (S_b_n fr);
     T_b_n := <[i := T_b]> (T_b_n fr);
     Q_m_n := <[i := Q_m]> (Q_m_n fr);
     Q_out_n := <[i := Q]> (Q_out_n fr) |}.

(** [for i in range(n)]: the body at the indices [0 .. n-1], in order. *)
Definition boxmodel_loop (S_a T_a Q_g z_b : F) (n : nat) (fr : box_frame)
  : box_frame :=
  foldl (boxmodel_body S_a T_a Q_g z_b) fr (seq 0 n).

Definition boxmodel (S_a T_a Q_g z_b : F) : box_result :=
  let fr := boxmodel_loop S_a T_a Q_g z_b N (boxmodel_init z_b) in
  {| box_v_b := (fun x => x * #s_yr) <$> v_b_n fr;
     box_S := S_n fr;
     box_T := T_n fr;
     box_S_b := S_b_n fr;
     box_T_b := T_b_n fr;
     box_Q_m := Q_m_n fr;
     box_Q_out := Q_out_n fr |}.

(** *** sens_study *)

(** The names that are first bound inside the loop of [sens_study]. *)
Record pass_locals : Type := PassLocals {
  lc_S_b : F;
  lc_T_b : F;
  lc_v_b : F;
  lc_Q_m : F;
  lc_Q : F
}.

(** The local variables of [sens_study]: [S] and [T], and the names of the
    loop body, which are unbound ([None]) until the body has run once. *)
Record sens_frame : Type := SensFrame {
  ss_S : F;
  ss_T : F;
  ss_loc : option pass_locals
}.

(** The dictionary [sens_study] returns, same keys as [boxmodel]'s. *)
Record sens_result : Type := SensResult {
  sens_v_b : F;
  sens_S : F;
  sens_T : F;
  sens_S_b : F;
  sens_T_b : F;
  sens_Q_m : F;
  sens_Q_out : F
}.

Definition sens_init (z_b : F) : sens_frame :=
  let S := #30 in
  let T := freeze S z_b in
  {| ss_S := S; ss_T := T; ss_loc := None |}.

Definition sens_body (S_a T_a Q_g z_b : F) (fr : sens_frame) (i : nat)
  : sens_frame :=
  let S := ss_S fr in
  let T := ss_T fr in
  let bmelt := basalmelting S T z_b in
  let S_b := bm_S_b bmelt in
  let T_b := bm_T_b bmelt in
  let v_b := (gamma_S * (S - S_b)) / S_b in
  let Q_m := v_b * #A in
  let Q := - (Q_g + Q_m + Q_a) in
  let S := (Q_a * S_a + V_dt * S) / (V_dt - Q) in
  let T := (Q_a * T_a + Q_g * T_g + (Q_m + #A * gamma_T) * T_b + V_dt * T)
           / (V_dt - Q + #A * gamma_T) in
  {| ss_S := S; ss_T := T;
     ss_loc := Some {| lc_S_b := S_b; lc_T_b := T_b; lc_v_b := v_b;
                       lc_Q_m := Q_m; lc_Q := Q |} |}.

Definition sens_loop (S_a T_a Q_g z_b : F) (n : nat) (fr : sens_frame)
  : sens_frame :=
  foldl (sens_body S_a T_a Q_g z_b) fr (seq 0 n).

(** [None] stands for the [UnboundLocalError] that the [return] statement
    raises when the loop body never ran. *)
Definition sens_study (S_a T_a Q_g z_b : F) : option sens_result :=
  let fr := sens_loop S_a T_a Q_g z_b N (sens_init z_b) in
  lc ← ss_loc fr;
  Some {| sens_v_b := lc_v_b lc * #s_yr;
          sens_S := ss_S fr;
          sens_T := ss_T fr;
          sens_S_b := lc_S_b lc;
          sens_T_b := lc_T_b lc;
          sens_Q_m := lc_Q_m lc;
          sens_Q_out := lc_Q lc |}.

(** Subscripting the returned dictionary; [None] stands for [KeyError]. *)
Definition sens_get (r : sens_result) (key : string) : option F :=
  if String.eqb key "v_b" then Some (sens_v_b r)
  else if String.eqb key "S" then Some (sens_S r)
  else if String.eqb key "T" then Some (sens_T r)
  else if String.eqb key "S_b" then Some (sens_S_b r)
  else if String.eqb key "T_b" then Some (sens_T_b r)
  else if String.eqb key "Q_m" then Some (sens_Q_m r)
  else if String.eqb key "Q_out" then Some (sens_Q_out r)
  else None.

(** *** The loop body as a function of the plume state

    What one pass of the loop of [boxmodel] and [sens_study] computes from
    the plume state [(S, T)] it starts in; the theorems below relate the two
    loops to the iterates of this update. *)

Record pass : Type := Pass {
  p_S_b : F;
  p_T_b : F;
  p_v_b : F;
  p_Q_m : F;
  p_Q : F;
  p_S : F;
  p_T : F
}.

Definition plume_pass (S_a T_a Q_g z_b : F) (st : F * F) : pass :=
  let S_b := bm_S_b (basalmelting st.1 st.2 z_b) in
  let T_b := bm_T_b (basalmelting st.1 st.2 z_b) in
  let v_b := (gamma_S * (st.1 - S_b)) / S_b in
  let Q_m := v_b * #A in
  let Q := - (Q_g + Q_m + Q_a) in
  {| p_S_b := S_b; p_T_b := T_b; p_v_b := v_b; p_Q_m := Q_m; p_Q := Q;
     p_S := (Q_a * S_a + V_dt * st.1) / (V_dt - Q);
     p_T := (Q_a * T_a + Q_g * T_g + (Q_m + #A * gamma_T) * T_b + V_dt * st.2)
            / (V_dt - Q + #A * gamma_T) |}.

Definition plume_update (S_a T_a Q_g z_b : F) (st : F * F) : F * F :=
  (p_S (plume_pass S_a T_a Q_g z_b st), p_T (plume_pass S_a T_a Q_g z_b st)).

(** The plume state after [k] updates from the starting value. *)
Definition plume_state (S_a T_a Q_g z_b : F) (k : nat) : F * F :=
  Nat.iter k (plume_update S_a T_a Q_g z_b) (#30, freeze #30 z_b).

(** *** variation *)

(** [np.zeros((X, X))], an array of rows; [X] is a size that NumPy can
    allocate. *)
Definition np_zeros2 (X : nat) : list (list F) :=
  replicate X (replicate X #0).

(** [m[i, k] = v] *)
Definition set2 (m : list (list F)) (i k : nat) (v : F) : list (list F) :=
  alter (<[k := v]>) i m.

(** [m.transpose()] of an array with [cols] columns. *)
Definition transpose (cols : nat) (m : list (list F)) : list (list F) :=
  (fun k => omap (fun row => row !! k) m) <$> seq 0 cols.

(** [for i in range(0, n)] around a body that may raise. *)
Definition for_range {St : Type} (n : nat) (body : St -> nat -> option St)
  (st : option St) : option St :=
  foldl (fun acc i => st ← acc; body st i) st (seq 0 n).

(** The body of the inner loop: the assignment to [colormap[i,k]]. *)
Definition variation_body (S_bot S_top T_bot T_top Q_g z_b : F)
  (Quantity : string) (X : nat) (i : nat) (colormap : list (list F)) (k : nat)
  : option (list (list F)) :=
  let salt := S_bot + #(Z.of_nat i) * (S_top - S_bot) / #(Z.of_nat X) in
  let temp := T_bot + #(Z.of_nat k) * (T_top - T_bot) / #(Z.of_nat X) in
  if temp >=? y1 * salt + y2 + y3 * z_b then
    r ← sens_study salt temp Q_g z_b;
    v ← sens_get r Quantity;
    Some (set2 colormap i k v)
  else
    Some (set2 colormap i k np_nan).

Definition variation (S_bot S_top T_bot T_top Q_g z_b : F)
  (Quantity : string) (X : nat) : option (list (list F)) :=
  let colormap := np_zeros2 X in
  colormap ← for_range X (fun colormap i =>
                for_range X
                  (variation_body S_bot S_top T_bot T_top Q_g z_b Quantity X i)
                  (Some colormap))
              (Some colormap);
  Some (transpose X colormap).

End Model.

Arguments melt : clear implicits.
Arguments box_frame : clear implicits.
Arguments box_result : clear implicits.
Arguments pass_locals : clear implicits.
Arguments sens_frame : clear implicits.
Arguments sens_result : clear implicits.
Arguments pass : clear implicits.

End BoxModel.

(** ** The carriers *)

(** *** Exact real arithmetic *)

#[export] Instance R_Arith : Arith R := {|
  of_int := IZR;
  fadd := Rplus;
  fsub := Rminus;
  fmul := Rmult;
  fdiv := Rdiv;
  fneg := Ropp;
  fpow2 := fun x => (x ^ 2)%R;
  np_sqrt := R_sqrt.sqrt;
  fge := fun x y => if Rge_dec x y then true else false
|}.

#[export] Instance R_Trig : Trig R := {|
  np_sin := Rtrigo_def.sin;
  np_arctan := Ratan.atan
|}.

(** *** IEEE 754 binary64 *)

(** The float a Python [int] is promoted to.  It goes through the kernel's
    63-bit integers, so it is Python's promotion for [|z| < 2^63] only
    (beyond, Python still rounds to the nearest float, and raises
    [OverflowError] past the binary64 range); it is exact below [2^53].
    The integers of the notebook are its constants, and the indices and
    the resolution [X] of [variation], whose [np.zeros((X, X))] has to fit
    in memory. *)
Definition float_of_Z (z : Z) : PrimFloat.float :=
  match z with
  | Z0 => PrimFloat.zero
  | Zpos _ => PrimFloat.of_uint63 (Uint63.of_Z z)
  | Zneg p => PrimFloat.opp (PrimFloat.of_uint63 (Uint63.of_Z (Zpos p)))
  end.

(** The operations of NumPy scalars; none raises.  [x ** 2] is the C
    library's [pow(x, 2.0)], which is within one unit in the last place of
    the square; it is taken to be the correctly rounded square [x * x],
    from which it can differ in the last bit.  Python's [OverflowError] is
    in [py_pow2] below. *)
#[export] Instance float_Arith : Arith PrimFloat.float := {|
  of_int := float_of_Z;
  fadd := PrimFloat.add;
  fsub := PrimFloat.sub;
  fmul := PrimFloat.mul;
  fdiv := PrimFloat.div;
  fneg := PrimFloat.opp;
  fpow2 := fun x => PrimFloat.mul x x;
  np_sqrt := PrimFloat.sqrt;
  fge := fun x y => PrimFloat.leb y x
|}.

#[export] Instance float_NaN : NaN PrimFloat.float := {|
  np_nan := PrimFloat.nan
|}.

(** *** Python floats, NumPy float64 scalars and exceptions *)

Inductive exn : Type :=
  | OverflowError
  | ZeroDivisionError.

(** A scalar of the running notebook: a Python [float], a NumPy [float64],
    or the exception that the evaluation of the expression raised.  An
    exception is carried as a value that every later operation passes on,
    so that a function of the notebook raises when a value it computes is
    [Raise].  A call stops at the first statement that raises: what it
    then returns or raises is what [call_freeze], [call_basalmelting],
    [call_boxmodel], [call_sens_study] and [call_variation] below state. *)
Inductive pyval : Type :=
  | PyFloat (x : PrimFloat.float)
  | NpFloat (x : PrimFloat.float)
  | Raise (e : exn).

(** [+], [-], [*]: NumPy's operation as soon as one operand is a [float64]
    ([float64] subclasses [float] and overrides the reflected methods),
    Python's otherwise; neither raises.  Operands are evaluated left to
    right, so the left exception wins. *)
Definition py_binop (op : PrimFloat.float -> PrimFloat.float -> PrimFloat.float)
  (a b : pyval) : pyval :=
  match a, b with
  | Raise e, _ => Raise e
  | _, Raise e => Raise e
  | PyFloat x, PyFloat y => PyFloat (op x y)
  | PyFloat x, NpFloat y | NpFloat x, PyFloat y | NpFloat x, NpFloat y =>
      NpFloat (op x y)
  end.

(** [/]: Python's float division raises [ZeroDivisionError] on a zero
    divisor; NumPy's returns an infinity or not-a-number (and warns). *)
Definition py_div (a b : pyval) : pyval :=
  match a, b with
  | Raise e, _ => Raise e
  | _, Raise e => Raise e
  | PyFloat x, PyFloat y =>
      if PrimFloat.is_zero y then Raise ZeroDivisionError
      else PyFloat (PrimFloat.div x y)
  | PyFloat x, NpFloat y | NpFloat x, PyFloat y | NpFloat x, NpFloat y =>
      NpFloat (PrimFloat.div x y)
  end.

Definition py_neg (a : pyval) : pyval :=
  match a with
  | PyFloat x => PyFloat (PrimFloat.opp x)
  | NpFloat x => NpFloat (PrimFloat.opp x)
  | Raise e => Raise e
  end.

(** The condition under which Python's [x ** 2] raises [OverflowError]: a
    finite [x] whose square is not. *)
Definition pow2_overflows (x : PrimFloat.float) : bool :=
  PrimFloat.is_finite x && PrimFloat.is_infinity (PrimFloat.mul x x).

(** [** 2]: Python's [float.__pow__] raises [OverflowError] when the result
    of a finite operand overflows ([1e200 ** 2] does); NumPy's returns the
    infinity (and warns). *)
Definition py_pow2 (a : pyval) : pyval :=
  match a with
  | PyFloat x =>
      if pow2_overflows x then Raise OverflowError
      else PyFloat (PrimFloat.mul x x)
  | NpFloat x => NpFloat (PrimFloat.mul x x)
  | Raise e => Raise e
  end.

(** A NumPy function of one argument: the result is a [float64]. *)
Definition np_unary (f : PrimFloat.float -> PrimFloat.float) (a : pyval) : pyval :=
  match a with
  | PyFloat x | NpFloat x => NpFloat (f x)
  | Raise e => Raise e
  end.

(** [>=] on two scalars; no comparison of the notebook has an operand
    that raised. *)
Definition py_ge (a b : pyval) : bool :=
  match a, b with
  | (PyFloat x | NpFloat x), (PyFloat y | NpFloat y) => PrimFloat.leb y x
  | _, _ => false
  end.

#[export] Instance pyval_Arith : Arith pyval := {|
  of_int := fun z => PyFloat (float_of_Z z);
  fadd := py_binop PrimFloat.add;
  fsub := py_binop PrimFloat.sub;
  fmul := py_binop PrimFloat.mul;
  fdiv := py_div;
  fneg := py_neg;
  fpow2 := py_pow2;
  np_sqrt := np_unary PrimFloat.sqrt;
  fge := py_ge
|}.

#[export] Instance pyval_Trig (TF : Trig PrimFloat.float) : Trig pyval := {|
  np_sin := np_unary np_sin;
  np_arctan := np_unary np_arctan
|}.

(** [np.nan] is a Python float. *)
#[export] Instance pyval_NaN : NaN pyval := {|
  np_nan := PyFloat PrimFloat.nan
|}.


(** A stand-in for the C library's [sin] and [atan], for running the model
    on [float]: their Taylor polynomials, which are accurate to the last
    bits at the one argument the notebook passes ([0.0075]).  The theorems
    below hold for every [Trig float]. *)
Definition taylor_sin (x : PrimFloat.float) : PrimFloat.float :=
  let x2 := (x * x)%float in
  (x * (1 - x2 / 6 * (1 - x2 / 20 * (1 - x2 / 42))))%float.

Definition taylor_arctan (x : PrimFloat.float) : PrimFloat.float :=
  let x2 := (x * x)%float in
  (x * (1 - x2 * (1 / 3 - x2 * (1 / 5 - x2 * (1 / 7 - x2 / 9)))))%float.

Definition taylor_Trig : Trig PrimFloat.float := {|
  np_sin := taylor_sin;
  np_arctan := taylor_arctan
|}.

Import BoxModel.


(** ** Vocabulary of the statements *)

(** *** The loops *)

(** The seven arrays of a frame have the length they were allocated with. *)
Definition sized {F : Type} (fr : box_frame F) : Prop :=
  length (v_b_n fr) = N /\ length (S_n fr) = N /\ length (T_n fr) = N /\
  length (Q_m_n fr) = N /\ length (Q_out_n fr) = N /\
  length (S_b_n fr) = N /\ length (T_b_n fr) = N.

(** Index [i] of the seven arrays holds what the pass from the plume state
    after [i] updates computes. *)
Definition recorded {F : Type} {AF : Arith F} {TF : Trig F}
  (S_a T_a Q_g z_b : F) (fr : box_frame F) (i : nat) : Prop :=
  let p := plume_pass S_a T_a Q_g z_b (plume_state S_a T_a Q_g z_b i) in
  v_b_n fr !! i = Some (p_v_b p) /\ S_n fr !! i = Some (p_S p) /\
  T_n fr !! i = Some (p_T p) /\ Q_m_n fr !! i = Some (p_Q_m p) /\
  Q_out_n fr !! i = Some (p_Q p) /\ S_b_n fr !! i = Some (p_S_b p) /\
  T_b_n fr !! i = Some (p_T_b p).

(** The seven arrays of two frames agree at index [i]. *)
Definition same_at {F : Type} (fr fr' : box_frame F) (i : nat) : Prop :=
  v_b_n fr' !! i = v_b_n fr !! i /\ S_n fr' !! i = S_n fr !! i /\
  T_n fr' !! i = T_n fr !! i /\ Q_m_n fr' !! i = Q_m_n fr !! i /\
  Q_out_n fr' !! i = Q_out_n fr !! i /\ S_b_n fr' !! i = S_b_n fr !! i /\
  T_b_n fr' !! i = T_b_n fr !! i.

(** The names that a pass binds in the body of [sens_study]'s loop. *)
Definition locals_of {F : Type} (p : pass F) : pass_locals F :=
  {| lc_S_b := p_S_b p; lc_T_b := p_T_b p; lc_v_b := p_v_b p;
     lc_Q_m := p_Q_m p; lc_Q := p_Q p |}.

(** *** The grid of [variation] *)

(** [m[i, k]] *)
Definition get2 {F : Type} (m : list (list F)) (i k : nat) : option F :=
  m !! i ≫= fun row => row !! k.

(** An [X] by [X] array. *)
Definition shaped {F : Type} (X : nat) (m : list (list F)) : Prop :=
  length m = X /\ Forall (fun row => length row = X) m.

(** The keys of the dictionary [sens_study] returns. *)
Definition valid_key (q : string) : bool :=
  bool_decide (q ∈ ["v_b"; "S"; "T"; "S_b"; "T_b"; "Q_m"; "Q_out"]).

(** The [j]-th of [X] samples from [lo] towards [hi]:
    [lo + j * (hi - lo) / X]. *)
Definition grid_point {F : Type} {AF : Arith F} (lo hi : F) (X j : nat) : F :=
  (lo + #(Z.of_nat j) * (hi - lo) / #(Z.of_nat X))%num.

(** The masked value of grid point [(i, k)]: the no-data value where the
    sampled temperature fails the test against the freezing line, and
    [sens_study(salt, temp, Q_g, z_b)[Quantity]] elsewhere. *)
Definition masked_cell {F : Type} {AF : Arith F} {TF : Trig F} {NF : NaN F}
  (S_bot S_top T_bot T_top Q_g z_b : F) (Quantity : string) (X i k : nat)
  : option F :=
  let salt := grid_point S_bot S_top X i in
  let temp := grid_point T_bot T_top X k in
  if (temp >=? y1 * salt + y2 + y3 * z_b)%num
  then sens_study salt temp Q_g z_b ≫= fun r => sens_get r Quantity
  else Some np_nan.

(** *** Exact arithmetic *)

(** The inputs of [basalmelting] the sign statements are about: a positive
    salinity, and a depth above 244 km below sea level, a range on which
    the factor [c_i * (y3 * z_b - T_i) + L] of the coefficient [c] is
    positive.  Every depth of an ocean is in it. *)
Definition physically_valid (S z_b : R) : Prop :=
  (0 < S /\ -244000 <= z_b)%R.

(** *** Errors *)

(** The same value under every key. *)
Definition melt_all {A : Type} (v : A) : melt A :=
  {| bm_S_b := v; bm_T_b := v; bm_v_b := v |}.

Definition pass_all {A : Type} (v : A) : pass A :=
  {| p_S_b := v; p_T_b := v; p_v_b := v; p_Q_m := v; p_Q := v;
     p_S := v; p_T := v |}.

Definition box_all {A : Type} (v : A) : box_result A :=
  {| box_v_b := replicate N v; box_S := replicate N v;
     box_T := replicate N v; box_S_b := replicate N v;
     box_T_b := replicate N v; box_Q_m := replicate N v;
     box_Q_out := replicate N v |}.

Definition sens_all {A : Type} (v : A) : sens_result A :=
  {| sens_v_b := v; sens_S := v; sens_T := v; sens_S_b := v; sens_T_b := v;
     sens_Q_m := v; sens_Q_out := v |}.

(** A function applied under every key. *)
Definition melt_map {A B : Type} (f : A -> B) (m : melt A) : melt B :=
  {| bm_S_b := f (bm_S_b m); bm_T_b := f (bm_T_b m); bm_v_b := f (bm_v_b m) |}.

Definition pass_map {A B : Type} (f : A -> B) (p : pass A) : pass B :=
  {| p_S_b := f (p_S_b p); p_T_b := f (p_T_b p); p_v_b := f (p_v_b p);
     p_Q_m := f (p_Q_m p); p_Q := f (p_Q p); p_S := f (p_S p);
     p_T := f (p_T p) |}.

Definition box_map {A B : Type} (f : A -> B) (r : box_result A) : box_result B :=
  {| box_v_b := f <$> box_v_b r; box_S := f <$> box_S r;
     box_T := f <$> box_T r; box_S_b := f <$> box_S_b r;
     box_T_b := f <$> box_T_b r; box_Q_m := f <$> box_Q_m r;
     box_Q_out := f <$> box_Q_out r |}.

Definition sens_map {A B : Type} (f : A -> B) (r : sens_result A)
  : sens_result B :=
  {| sens_v_b := f (sens_v_b r); sens_S := f (sens_S r);
     sens_T := f (sens_T r); sens_S_b := f (sens_S_b r);
     sens_T_b := f (sens_T_b r); sens_Q_m := f (sens_Q_m r);
     sens_Q_out := f (sens_Q_out r) |}.

(** The first pass of the loops of [boxmodel] and [sens_study] at depth
    [z_b] squares a [b] that overflows. *)
Definition first_overflows (z_b : PrimFloat.float) : bool :=
  pow2_overflows (bm_b (of_int 30) (freeze (of_int 30) z_b) z_b).

(** *** The melt rate and the plume update, in exact arithmetic *)

(** How far below the freezing line the melt velocity of [basalmelting]
    changes sign: [gamma_S * c_i * y2 / (c_p * gamma_T)], about [0.0012]
    degrees. *)
Definition melt_offset : R :=
  (gamma_S * IZR c_i * y2 / (IZR c_p * gamma_T))%R.

(** *** Calls on Python scalars: what is returned, and what is raised

    In the functions above a raised exception is the value [Raise] of the
    expression that raised it, and later expressions pass it on.  A call
    of the notebook stops at the first statement whose expression raises:
    the functions below run the statements of the source in their order
    and say, for a call, either what it returns or which exception ends
    it. *)

(** The exceptions that can end a call: one raised by the arithmetic of an
    expression, the [KeyError] of a subscript with a key the dictionary
    does not have, the [UnboundLocalError] of a name read before it is
    bound. *)
Inductive error : Type :=
  | Arithmetic (e : exn)
  | KeyError
  | UnboundLocalError.

Inductive outcome (A : Type) : Type :=
  | Returns (a : A)
  | Raises (e : error).

Arguments Returns {A} a.
Arguments Raises {A} e.

#[export] Instance outcome_ret : MRet outcome := fun A a => Returns a.

#[export] Instance outcome_bind : MBind outcome := fun A B f o =>
  match o with
  | Returns a => f a
  | Raises e => Raises e
  end.

(** A statement evaluates its expression: it raises when the expression
    did, and has the value otherwise. *)
Definition eval (v : pyval) : outcome pyval :=
  match v with
  | Raise e => Raises (Arithmetic e)
  | _ => Returns v
  end.

(** [for i in range(n)] around a body that may raise. *)
Definition call_for_range {St : Type} (n : nat)
  (body : St -> nat -> outcome St) (st : outcome St) : outcome St :=
  foldl (fun acc i => st ← acc; body st i) st (seq 0 n).

(** Subscripting the dictionary [sens_study] returns. *)
Definition subscript (r : sens_result pyval) (key : string) : outcome pyval :=
  match sens_get r key with
  | Some v => Returns v
  | None => Raises KeyError
  end.

Section Calls.

Context {TF : Trig PrimFloat.float}.

Local Open Scope num_scope.

Definition call_freeze (S z_b : pyval) : outcome pyval :=
  T ← eval (y1 * S + y2 + y3 * z_b);
  Returns T.

Definition call_basalmelting (S T z_b : pyval) : outcome (melt pyval) :=
  a ← eval (y1 * (gamma_T - gamma_S * #c_i / #c_p));
  b ← eval (gamma_T * (y2 + y3 * z_b - T)
            + gamma_S / #c_p * (#c_i * (y1 * S - y2 - y3 * z_b + #T_i) - L));
  c ← eval ((gamma_S * S) / #c_p * (#c_i * (y3 * z_b - #T_i) + L));
  S_b ← eval (- (b + np_sqrt (fpow2 b - #4 * a * c)) / (#2 * a));
  T_b ← eval (y1 * S_b + y2 + y3 * z_b);
  v_b ← eval ((gamma_S * (S - S_b)) / S_b);
  v_b_yr ← eval (v_b * #s_yr);
  Returns {| bm_S_b := S_b; bm_T_b := T_b; bm_v_b := v_b_yr |}.

(** The statements of the loop body that [boxmodel] and [sens_study]
    share, from the plume state [(S, T)]. *)
Definition call_pass (S_a T_a Q_g z_b : pyval) (S T : pyval)
  : outcome (pass pyval) :=
  bmelt ← call_basalmelting S T z_b;
  let S_b := bm_S_b bmelt in
  let T_b := bm_T_b bmelt in
  v_b ← eval ((gamma_S * (S - S_b)) / S_b);
  Q_m ← eval (v_b * #A);
  Q ← eval (- (Q_g + Q_m + Q_a));
  S' ← eval ((Q_a * S_a + V_dt * S) / (V_dt - Q));
  T' ← eval ((Q_a * T_a + Q_g * T_g + (Q_m + #A * gamma_T) * T_b + V_dt * T)
             / (V_dt - Q + #A * gamma_T));
  Returns {| p_S_b := S_b; p_T_b := T_b; p_v_b := v_b; p_Q_m := Q_m;
             p_Q := Q; p_S := S'; p_T := T' |}.

Definition call_boxmodel_body (S_a T_a Q_g z_b : pyval) (fr : box_frame pyval)
  (i : nat) : outcome (box_frame pyval) :=
  p ← call_pass S_a T_a Q_g z_b (bx_S fr) (bx_T fr);
  Returns {| bx_S := p_S p; bx_T := p_T p;
             v_b_n := <[i := p_v_b p]> (v_b_n fr);
             S_n := <[i := p_S p]> (S_n fr);
             T_n := <[i := p_T p]> (T_n fr);
             S_b_n := <[i := p_S_b p]> (S_b_n fr);
             T_b_n := <[i := p_T_b p]> (T_b_n fr);
             Q_m_n := <[i := p_Q_m p]> (Q_m_n fr);
             Q_out_n := <[i := p_Q p]> (Q_out_n fr) |}.

Definition call_boxmodel (S_a T_a Q_g z_b : pyval) : outcome (box_result pyval) :=
  let S := #30 in
  T ← call_freeze S z_b;
  fr ← call_for_range N (call_boxmodel_body S_a T_a Q_g z_b)
         (Returns {| bx_S := S; bx_T := T;
                     v_b_n := replicate N np_nan;
                     S_n := replicate N np_nan;
                     T_n := replicate N np_nan;
                     Q_m_n := replicate N np_nan;
                     Q_out_n := replicate N np_nan;
                     S_b_n := replicate N np_nan;
                     T_b_n := replicate N np_nan |});
  Returns {| box_v_b := (fun x => x * #s_yr) <$> v_b_n fr;
             box_S := S_n fr;
             box_T := T_n fr;
             box_S_b := S_b_n fr;
             box_T_b := T_b_n fr;
             box_Q_m := Q_m_n fr;
             box_Q_out := Q_out_n fr |}.

Definition call_sens_body (S_a T_a Q_g z_b : pyval) (fr : sens_frame pyval)
  (i : nat) : outcome (sens_frame pyval) :=
  p ← call_pass S_a T_a Q_g z_b (ss_S fr) (ss_T fr);
  Returns {| ss_S := p_S p; ss_T := p_T p;
             ss_loc := Some {| lc_S_b := p_S_b p; lc_T_b := p_T_b p;
                               lc_v_b := p_v_b p; lc_Q_m := p_Q_m p;
                               lc_Q := p_Q p |} |}.

Definition call_sens_study (S_a T_a Q_g z_b : pyval)
  : outcome (sens_result pyval) :=
  let S := #30 in
  T ← call_freeze S z_b;
  fr ← call_for_range N (call_sens_body S_a T_a Q_g z_b)
         (Returns {| ss_S := S; ss_T := T; ss_loc := None |});
  match ss_loc fr with
  | None => Raises UnboundLocalError
  | Some lc =>
      v_b_yr ← eval (lc_v_b lc * #s_yr);
      Returns {| sens_v_b := v_b_yr;
                 sens_S := ss_S fr;
                 sens_T := ss_T fr;
                 sens_S_b := lc_S_b lc;
                 sens_T_b := lc_T_b lc;
                 sens_Q_m := lc_Q_m lc;
                 sens_Q_out := lc_Q lc |}
  end.

Definition call_variation_body (S_bot S_top T_bot T_top Q_g z_b : pyval)
  (Quantity : string) (X : nat) (i : nat) (colormap : list (list pyval))
  (k : nat) : outcome (list (list pyval)) :=
  salt ← eval (S_bot + #(Z.of_nat i) * (S_top - S_bot) / #(Z.of_nat X));
  temp ← eval (T_bot + #(Z.of_nat k) * (T_top - T_bot) / #(Z.of_nat X));
  line ← eval (y1 * salt + y2 + y3 * z_b);
  if temp >=? line then
    r ← call_sens_study salt temp Q_g z_b;
    v ← subscript r Quantity;
    Returns (set2 colormap i k v)
  else
    Returns (set2 colormap i k np_nan).

Definition call_variation (S_bot S_top T_bot T_top Q_g z_b : pyval)
  (Quantity : string) (X : nat) : outcome (list (list pyval)) :=
  let colormap := np_zeros2 X in
  colormap ← call_for_range X (fun colormap i =>
                call_for_range X
                  (call_variation_body S_bot S_top T_bot T_top Q_g z_b
                     Quantity X i)
                  (Returns colormap))
              (Returns colormap);
  Returns (transpose X colormap).

End Calls.

(** What evaluating the right-hand side of the assignment to
    [colormap[i,k]] does in a call of [variation] on Python floats, in
    terms of the binary64 values: the no-data value where the grid point
    fails the test; where it passes, the [OverflowError] of the first
    pass of [sens_study], or the value under the key, or the [KeyError]
    of the subscript. *)
Definition call_cell {TF : Trig PrimFloat.float}
  (S_bot S_top T_bot T_top Q_g z_b : PrimFloat.float) (Quantity : string)
  (X i k : nat) : outcome pyval :=
  let salt := grid_point S_bot S_top X i in
  let temp := grid_point T_bot T_top X k in
  if fge temp (freeze salt z_b) then
    if first_overflows z_b then Raises (Arithmetic OverflowError)
    else match sens_study salt temp Q_g z_b ≫= fun r => sens_get r Quantity with
         | Some v => Returns (NpFloat v)
         | None => Raises KeyError
         end
  else Returns (PyFloat PrimFloat.nan).

(** ** Proof automation *)

(** Unfolds the formulas of [freeze] and [basalmelting] over [R] down to
    real arithmetic on decimal constants. *)
Ltac real_arith :=
  unfold freeze, basalmelting, bm_disc, bm_a, bm_b, bm_c, gamma_T, gamma_S,
    y1, y2, y3, c_i, c_p, L, St_T, St_S, E_0, T_i, u, dec, s_yr,
    physically_valid in *;
  cbn [of_int fadd fsub fmul fdiv fneg fpow2 np_sqrt R_Arith
       bm_S_b bm_T_b bm_v_b] in *;
  repeat match goal with
         | |- context [IZR ?z] =>
             lazymatch z with
             | Z0 => fail
             | Zpos _ => fail
             | Zneg _ => fail
             | _ => let v := eval vm_compute in z in change z with v
             end
         end.

(** ** The loops of [boxmodel] and [sens_study], for every carrier *)

Section Loops.

Context {F : Type} {AF : Arith F} {TF : Trig F}.
Variables S_a T_a Q_g z_b : F.

Local Abbreviation state := (plume_state S_a T_a Q_g z_b).
Local Abbreviation pass_at k := (plume_pass S_a T_a Q_g z_b (state k)).

Lemma plume_state_S k : state (S k) = (p_S (pass_at k), p_T (pass_at k)).
Proof. reflexivity. Qed.

Lemma boxmodel_loop_S n fr :
  boxmodel_loop S_a T_a Q_g z_b (S n) fr
  = boxmodel_body S_a T_a Q_g z_b (boxmodel_loop S_a T_a Q_g z_b n fr) n.
Proof. unfold boxmodel_loop. rewrite seq_S, foldl_app. reflexivity. Qed.

Lemma sens_loop_S n fr :
  sens_loop S_a T_a Q_g z_b (S n) fr
  = sens_body S_a T_a Q_g z_b (sens_loop S_a T_a Q_g z_b n fr) n.
Proof. unfold sens_loop. rewrite seq_S, foldl_app. reflexivity. Qed.

(** The body of [boxmodel]'s loop is the pass from the frame's plume state,
    stored at index [i]. *)
Lemma boxmodel_body_pass fr i :
  let p := plume_pass S_a T_a Q_g z_b (bx_S fr, bx_T fr) in
  boxmodel_body S_a T_a Q_g z_b fr i
  = {| bx_S := p_S p; bx_T := p_T p;
       v_b_n := <[i := p_v_b p]> (v_b_n fr);
       S_n := <[i := p_S p]> (S_n fr);
       T_n := <[i := p_T p]> (T_n fr);
       Q_m_n := <[i := p_Q_m p]> (Q_m_n fr);
       Q_out_n := <[i := p_Q p]> (Q_out_n fr);
       S_b_n := <[i := p_S_b p]> (S_b_n fr);
       T_b_n := <[i := p_T_b p]> (T_b_n fr) |}.
Proof. reflexivity. Qed.

(** So is the body of [sens_study]'s loop, which keeps the last pass only. *)
Lemma sens_body_pass fr i :
  let p := plume_pass S_a T_a Q_g z_b (ss_S fr, ss_T fr) in
  sens_body S_a T_a Q_g z_b fr i
  = {| ss_S := p_S p; ss_T := p_T p; ss_loc := Some (locals_of p) |}.
Proof. reflexivity. Qed.

Lemma boxmodel_body_sized fr i :
  sized fr -> sized (boxmodel_body S_a T_a Q_g z_b fr i).
Proof.
  unfold sized. rewrite boxmodel_body_pass.
  cbn [v_b_n S_n T_n Q_m_n Q_out_n S_b_n T_b_n].
  rewrite !length_insert. tauto.
Qed.

(** A pass writes index [i] only. *)
Lemma boxmodel_body_same_at fr i j :
  i <> j -> same_at fr (boxmodel_body S_a T_a Q_g z_b fr i) j.
Proof.
  intros Hij. unfold same_at. rewrite boxmodel_body_pass.
  cbn [v_b_n S_n T_n Q_m_n Q_out_n S_b_n T_b_n].
  repeat split; apply list_lookup_insert_ne; exact Hij.
Qed.

(** A pass writes index [i], when it is in range. *)
Lemma boxmodel_body_recorded fr i :
  sized fr -> i < N -> (bx_S fr, bx_T fr) = state i ->
  recorded S_a T_a Q_g z_b (boxmodel_body S_a T_a Q_g z_b fr i) i.
Proof.
  intros (H1 & H2 & H3 & H4 & H5 & H6 & H7) Hi Hst.
  unfold recorded. rewrite boxmodel_body_pass, Hst.
  cbn [v_b_n S_n T_n Q_m_n Q_out_n S_b_n T_b_n].
  repeat split; apply list_lookup_insert_eq; lia.
Qed.

Lemma recorded_same_at fr fr' i :
  same_at fr fr' i -> recorded S_a T_a Q_g z_b fr i ->
  recorded S_a T_a Q_g z_b fr' i.
Proof.
  unfold same_at, recorded. cbv zeta.
  intros (-> & -> & -> & -> & -> & -> & ->). tauto.
Qed.

(** The loop of [sens_study] after [n] passes: the plume state after [n]
    updates, and the names bound by the last pass. *)
Lemma sens_loop_inv n :
  let fr := sens_loop S_a T_a Q_g z_b n (sens_init z_b) in
  (ss_S fr, ss_T fr) = state n /\
  ss_loc fr = match n with
              | 0 => None
              | S m => Some (locals_of (pass_at m))
              end.
Proof.
  induction n as [|n [IHst _]]; [split; reflexivity|].
  cbv zeta in *. rewrite sens_loop_S, sens_body_pass.
  cbv zeta; cbn [ss_S ss_T ss_loc]. rewrite IHst. split; reflexivity.
Qed.

(** The loop body runs at least once. *)
Lemma N_succ : exists m, N = S m.
Proof. exists 199. reflexivity. Qed.

(** What [sens_study] returns: the values of the last of the [N] passes. *)
Lemma sens_study_pass m :
  N = S m ->
  let p := pass_at m in
  sens_study S_a T_a Q_g z_b
  = Some {| sens_v_b := fmul (p_v_b p) (of_int s_yr);
            sens_S := p_S p; sens_T := p_T p;
            sens_S_b := p_S_b p; sens_T_b := p_T_b p;
            sens_Q_m := p_Q_m p; sens_Q_out := p_Q p |}.
Proof.
  intros HN. cbv zeta. unfold sens_study. rewrite HN.
  destruct (sens_loop_inv (S m)) as [Hst Hloc].
  rewrite plume_state_S in Hst. injection Hst as HS HT.
  cbv zeta. rewrite Hloc, HS, HT. reflexivity.
Qed.

(** [sens_study] never fails on an unbound name: the loop body runs. *)
Lemma sens_study_total : exists r, sens_study S_a T_a Q_g z_b = Some r.
Proof. destruct N_succ as [m HN]. eexists. apply (sens_study_pass m HN). Qed.

Context {NF : NaN F}.

Local Abbreviation final :=
  (boxmodel_loop S_a T_a Q_g z_b N (boxmodel_init z_b)).

Lemma boxmodel_init_sized : sized (boxmodel_init z_b).
Proof.
  unfold sized, boxmodel_init.
  cbn [v_b_n S_n T_n Q_m_n Q_out_n S_b_n T_b_n].
  rewrite !length_replicate. tauto.
Qed.

(** The loop of [boxmodel] after [n <= N] passes: the plume state after [n]
    updates, arrays of length [N], and the indices below [n] recorded. *)
Lemma boxmodel_loop_inv n :
  n <= N ->
  let fr := boxmodel_loop S_a T_a Q_g z_b n (boxmodel_init z_b) in
  (bx_S fr, bx_T fr) = state n /\ sized fr /\
  forall i, i < n -> recorded S_a T_a Q_g z_b fr i.
Proof.
  induction n as [|n IH]; intros Hn.
  - split; [reflexivity|].
    split; [apply boxmodel_init_sized | intros i Hi; lia].
  - destruct IH as (Hst & Hsz & Hrec); [lia|]. cbv zeta in *.
    rewrite boxmodel_loop_S.
    set (fr := boxmodel_loop S_a T_a Q_g z_b n (boxmodel_init z_b)) in *.
    split; [|split].
    + rewrite boxmodel_body_pass. cbv zeta; cbn [bx_S bx_T].
      rewrite Hst. reflexivity.
    + apply boxmodel_body_sized, Hsz.
    + intros i Hi. destruct (decide (i = n)) as [->|Hne].
      * apply boxmodel_body_recorded; [exact Hsz | lia | exact Hst].
      * apply (recorded_same_at fr); [apply boxmodel_body_same_at; lia|].
        apply Hrec; lia.
Qed.

Lemma final_sized : sized final.
Proof. destruct (boxmodel_loop_inv N) as (_ & H & _); [lia | exact H]. Qed.

Lemma final_recorded i : i < N -> recorded S_a T_a Q_g z_b final i.
Proof. destruct (boxmodel_loop_inv N) as (_ & _ & H); [lia | apply H]. Qed.

(** The entries of the arrays [boxmodel] returns. *)
Lemma boxmodel_entries i :
  i < N ->
  let r := boxmodel S_a T_a Q_g z_b in
  let p := pass_at i in
  box_v_b r !! i = Some (fmul (p_v_b p) (of_int s_yr)) /\
  box_S r !! i = Some (p_S p) /\ box_T r !! i = Some (p_T p) /\
  box_S_b r !! i = Some (p_S_b p) /\ box_T_b r !! i = Some (p_T_b p) /\
  box_Q_m r !! i = Some (p_Q_m p) /\ box_Q_out r !! i = Some (p_Q p).
Proof.
  intros Hi.
  destruct (final_recorded i Hi) as (H1 & H2 & H3 & H4 & H5 & H6 & H7).
  cbv zeta. unfold boxmodel.
  cbn [box_v_b box_S box_T box_S_b box_T_b box_Q_m box_Q_out].
  rewrite list_lookup_fmap, H1. auto 10.
Qed.

Lemma boxmodel_lengths :
  let r := boxmodel S_a T_a Q_g z_b in
  length (box_v_b r) = N /\ length (box_S r) = N /\ length (box_T r) = N /\
  length (box_S_b r) = N /\ length (box_T_b r) = N /\
  length (box_Q_m r) = N /\ length (box_Q_out r) = N.
Proof.
  destruct final_sized as (H1 & H2 & H3 & H4 & H5 & H6 & H7).
  cbv zeta. unfold boxmodel.
  cbn [box_v_b box_S box_T box_S_b box_T_b box_Q_m box_Q_out].
  rewrite length_fmap. auto 10.
Qed.

End Loops.

(** A list of length [n] whose entry at every [i < n] is [f i]. *)
Lemma tabulated {A : Type} (f : nat -> A) (xs : list A) (n : nat) :
  length xs = n -> (forall i, i < n -> xs !! i = Some (f i)) ->
  xs = f <$> seq 0 n.
Proof.
  intros Hlen Hget. apply list_eq. intros i.
  rewrite list_lookup_fmap. destruct (decide (i < n)) as [Hi|Hi].
  - rewrite lookup_seq_lt by exact Hi. rewrite Hget by exact Hi. reflexivity.
  - rewrite lookup_seq_ge by lia. apply lookup_ge_None_2. lia.
Qed.

(** The last entry of an array of length [N] is the entry at [N - 1]. *)
Lemma last_of_N {A : Type} (xs : list A) m :
  N = S m -> length xs = N -> last xs = xs !! m.
Proof. intros HN H. rewrite last_lookup, H, HN. reflexivity. Qed.

(** [boxmodel] in closed form: each array lists, in order, what the passes
    from the plume states after [0 .. N-1] updates compute. *)
Lemma boxmodel_tabulated
  {F : Type} {AF : Arith F} {TF : Trig F} {NF : NaN F} (S_a T_a Q_g z_b : F) :
  let pass_at i := plume_pass S_a T_a Q_g z_b (plume_state S_a T_a Q_g z_b i) in
  boxmodel S_a T_a Q_g z_b
  = {| box_v_b := (fun i => fmul (p_v_b (pass_at i)) (of_int s_yr)) <$> seq 0 N;
       box_S := (fun i => p_S (pass_at i)) <$> seq 0 N;
       box_T := (fun i => p_T (pass_at i)) <$> seq 0 N;
       box_S_b := (fun i => p_S_b (pass_at i)) <$> seq 0 N;
       box_T_b := (fun i => p_T_b (pass_at i)) <$> seq 0 N;
       box_Q_m := (fun i => p_Q_m (pass_at i)) <$> seq 0 N;
       box_Q_out := (fun i => p_Q (pass_at i)) <$> seq 0 N |}.
Proof.
  cbv zeta.
  destruct (boxmodel_lengths S_a T_a Q_g z_b) as (L1 & L2 & L3 & L4 & L5 & L6 & L7).
  pose proof (boxmodel_entries S_a T_a Q_g z_b) as E.
  destruct (boxmodel S_a T_a Q_g z_b) as [a1 a2 a3 a4 a5 a6 a7].
  cbn [box_v_b box_S box_T box_S_b box_T_b box_Q_m box_Q_out] in *.
  f_equal; apply tabulated; try assumption; intros i Hi;
    destruct (E i Hi) as (E1 & E2 & E3 & E4 & E5 & E6 & E7); assumption.
Qed.

(** ** The grid of [variation], for every carrier *)

Section Grid.

Context {F : Type}.
Implicit Types (m : list (list F)) (v : F).

Lemma shaped_row X m i row : shaped X m -> m !! i = Some row -> length row = X.
Proof.
  intros [_ H] Hi. rewrite Forall_forall in H. apply H.
  eapply list_elem_of_lookup_2. exact Hi.
Qed.

Lemma set2_shaped X m i k v : shaped X m -> shaped X (set2 m i k v).
Proof.
  intros [Hl Hr]. unfold set2. split.
  - rewrite length_alter. exact Hl.
  - apply Forall_alter; [exact Hr|].
    intros row _ Hrow. rewrite length_insert. exact Hrow.
Qed.

(** An assignment [m[i, k] = v] in range is read back. *)
Lemma get2_set2_eq X m i k v :
  shaped X m -> i < X -> k < X -> get2 (set2 m i k v) i k = Some v.
Proof.
  intros Hs Hi Hk. unfold get2, set2.
  destruct (lookup_lt_is_Some_2 m i) as [row Hrow]; [destruct Hs; lia|].
  rewrite list_lookup_alter_eq, Hrow. cbn.
  apply list_lookup_insert_eq. rewrite (shaped_row X m i row); auto.
Qed.

(** It leaves every other cell as it was. *)
Lemma get2_set2_ne m i k v i' k' :
  (i', k') <> (i, k) -> get2 (set2 m i k v) i' k' = get2 m i' k'.
Proof.
  intros Hne. unfold get2, set2.
  destruct (decide (i' = i)) as [->|Hi].
  - rewrite list_lookup_alter_eq.
    destruct (m !! i) as [row|]; cbn; [|reflexivity].
    apply list_lookup_insert_ne. congruence.
  - rewrite list_lookup_alter_ne by congruence. reflexivity.
Qed.

Lemma np_zeros2_shaped {AF : Arith F} X : shaped X (np_zeros2 X).
Proof.
  unfold np_zeros2. split; [apply length_replicate|].
  apply Forall_replicate. apply length_replicate.
Qed.

Lemma omap_lookup_total {A B : Type} (f : A -> option B) (xs : list A) i :
  Forall (fun x => is_Some (f x)) xs -> omap f xs !! i = xs !! i ≫= f.
Proof.
  intros H. revert i. induction H as [|x xs [y Hy] _ IH]; intros i.
  - reflexivity.
  - cbn. rewrite Hy. destruct i as [|i]; cbn; [rewrite Hy; reflexivity|apply IH].
Qed.

(** Transposition swaps the two indices. *)
Lemma get2_transpose X m i k :
  shaped X m -> k < X -> get2 (transpose X m) k i = get2 m i k.
Proof.
  intros Hs Hk. unfold get2 at 1, transpose.
  rewrite list_lookup_fmap, lookup_seq_lt by exact Hk. cbn.
  apply omap_lookup_total. destruct Hs as [_ Hs].
  eapply Forall_impl; [exact Hs|]. intros row Hrow. cbn in *.
  apply lookup_lt_is_Some_2. lia.
Qed.

Lemma omap_length_total {A B : Type} (f : A -> option B) (xs : list A) :
  Forall (fun x => is_Some (f x)) xs -> length (omap f xs) = length xs.
Proof.
  induction 1 as [|x xs [y Hy] _ IH]; [reflexivity|].
  cbn. rewrite Hy. cbn. rewrite IH. reflexivity.
Qed.

(** The transpose of an [X] by [X] array is one. *)
Lemma transpose_shaped X m : shaped X m -> shaped X (transpose X m).
Proof.
  intros [Hl Hr]. unfold transpose. split.
  - rewrite length_fmap, length_seq. reflexivity.
  - apply Forall_fmap, Forall_forall. intros k Hk.
    apply elem_of_seq in Hk. cbn.
    rewrite omap_length_total; [exact Hl|].
    eapply Forall_impl; [exact Hr|]. intros row Hrow. cbn in *.
    apply lookup_lt_is_Some_2. lia.
Qed.

Lemma for_range_S {St : Type} n (body : St -> nat -> option St) st :
  for_range (S n) body st = for_range n body st ≫= fun s => body s n.
Proof. unfold for_range. rewrite seq_S, foldl_app. reflexivity. Qed.

End Grid.

Lemma sens_get_valid {F : Type} (r : sens_result F) q :
  valid_key q = true -> is_Some (sens_get r q).
Proof.
  unfold valid_key. rewrite bool_decide_eq_true, !elem_of_cons, elem_of_nil.
  intros [->|[->|[->|[->|[->|[->|[->|[]]]]]]]]; cbn; eauto.
Qed.

Lemma sens_get_map {A B : Type} (f : A -> B) (r : sens_result A) q :
  sens_get (sens_map f r) q = f <$> sens_get r q.
Proof.
  unfold sens_get.
  repeat (destruct (String.eqb q _); [reflexivity|]). reflexivity.
Qed.

Section Variation.

Context {F : Type} {AF : Arith F} {TF : Trig F} {NF : NaN F}.
Variables S_bot S_top T_bot T_top Q_g z_b : F.
Variable Quantity : string.
Variable X : nat.
Hypothesis Hkey : valid_key Quantity = true.

Local Abbreviation body :=
  (variation_body S_bot S_top T_bot T_top Q_g z_b Quantity X).
Local Abbreviation cell :=
  (masked_cell S_bot S_top T_bot T_top Q_g z_b Quantity X).

(** The body of the inner loop assigns the masked cell. *)
Lemma variation_body_cell i cm k :
  body i cm k = cell i k ≫= fun v => Some (set2 cm i k v).
Proof.
  unfold variation_body, masked_cell, grid_point. cbv zeta.
  destruct (fge _ _); [|reflexivity].
  destruct (sens_study _ _ _ _) as [r|]; [|reflexivity]. cbn.
  destruct (sens_get r Quantity); reflexivity.
Qed.

Lemma masked_cell_total i k : is_Some (cell i k).
Proof using Hkey.
  unfold masked_cell. cbv zeta. destruct (fge _ _); [|eauto].
  destruct (sens_study_total (grid_point S_bot S_top X i)
              (grid_point T_bot T_top X k) Q_g z_b) as [r Hr].
  rewrite Hr. cbn. apply sens_get_valid, Hkey.
Qed.

(** The inner loop over [k < n] fills row [i] up to [n]. *)
Lemma inner_loop i cm n :
  shaped X cm -> i < X -> n <= X ->
  exists cm', for_range n (body i) (Some cm) = Some cm' /\ shaped X cm' /\
    forall i' k', get2 cm' i' k'
      = if decide (i' = i /\ k' < n) then cell i k' else get2 cm i' k'.
Proof using Hkey.
  intros Hs Hi. induction n as [|n IH]; intros Hn.
  - exists cm. split; [reflexivity|]. split; [exact Hs|].
    intros i' k'. destruct (decide _) as [[_ ?]|]; [lia|reflexivity].
  - destruct IH as (cm1 & Hrun & Hs1 & Hget); [lia|].
    destruct (masked_cell_total i n) as [v Hv].
    exists (set2 cm1 i n v). rewrite for_range_S, Hrun. cbn.
    rewrite variation_body_cell, Hv. cbn. split; [reflexivity|].
    split; [apply set2_shaped, Hs1|].
    intros i' k'. destruct (decide (i' = i /\ k' = n)) as [[-> ->]|Hne].
    + rewrite (get2_set2_eq X) by (auto; lia).
      destruct (decide _) as [|Hno]; [rewrite Hv; reflexivity|].
      exfalso; apply Hno; lia.
    + rewrite get2_set2_ne by (intros [= ? ?]; tauto). rewrite Hget.
      destruct (decide (i' = i /\ k' < n)) as [[? ?]|H1];
        destruct (decide (i' = i /\ k' < S n)) as [[? ?]|H2];
        try reflexivity; exfalso; [apply H2 | apply H1]; split; auto; lia.
Qed.

(** The outer loop over [i < m] fills the rows up to [m]. *)
Lemma outer_loop m :
  m <= X ->
  exists cm', for_range m (fun cm i => for_range X (body i) (Some cm))
                (Some (np_zeros2 X)) = Some cm' /\ shaped X cm' /\
    forall i' k', k' < X -> get2 cm' i' k'
      = if decide (i' < m) then cell i' k' else get2 (np_zeros2 X) i' k'.
Proof using Hkey.
  induction m as [|m IH]; intros Hm.
  - exists (np_zeros2 X). split; [reflexivity|].
    split; [apply np_zeros2_shaped|].
    intros i' k' _. destruct (decide _); [lia|reflexivity].
  - destruct IH as (cm1 & Hrun & Hs1 & Hget); [lia|].
    destruct (inner_loop m cm1 X Hs1) as (cm2 & Hrun2 & Hs2 & Hget2); [lia..|].
    exists cm2. rewrite for_range_S, Hrun. cbn. split; [exact Hrun2|].
    split; [exact Hs2|]. intros i' k' Hk. rewrite Hget2.
    destruct (decide (i' = m /\ k' < X)) as [[-> _]|H1].
    + destruct (decide _); [reflexivity|lia].
    + rewrite Hget by exact Hk.
      destruct (decide (i' < m)); destruct (decide (i' < S m));
        try reflexivity; lia.
Qed.

(** [variation] returns the transposed grid of masked cells. *)
Lemma variation_cells :
  exists cm, variation S_bot S_top T_bot T_top Q_g z_b Quantity X = Some cm /\
    shaped X cm /\
    forall i k, i < X -> k < X -> get2 cm k i = cell i k.
Proof using Hkey.
  destruct (outer_loop X) as (cm & Hrun & Hs & Hget); [lia|].
  exists (transpose X cm). unfold variation. cbv zeta. rewrite Hrun. cbn.
  split; [reflexivity|]. split; [apply transpose_shaped, Hs|].
  intros i k Hi Hk. rewrite (get2_transpose X) by assumption.
  rewrite Hget by exact Hk. destruct (decide _); [reflexivity|lia].
Qed.

End Variation.

(** ** The quadratic of [basalmelting], in exact arithmetic *)

Section Quadratic.

Local Open Scope R_scope.

Variables a b c : R.

Local Abbreviation D := (b ^ 2 - 4 * a * c).
Local Abbreviation x := (- (b + sqrt D) / (2 * a)).

(** The selected root solves the quadratic when the radicand is not
    negative. *)
Lemma quadratic_root : a <> 0 -> 0 <= D -> a * x ^ 2 + b * x + c = 0.
Proof.
  intros Ha HD. pose proof (sqrt_sqrt D HD) as Hs.
  set (s := sqrt D) in *.
  assert (E : a * (- (b + s) / (2 * a)) ^ 2 + b * (- (b + s) / (2 * a)) + c
              = (s * s - D) / (4 * a)) by (field; exact Ha).
  rewrite E, Hs. field. exact Ha.
Qed.

(** With [a < 0 < c] the selected root is the positive one, and it lies
    below every [S > 0] at which the quadratic is not positive. *)
Lemma root_bounds S :
  a < 0 -> 0 < c -> 0 < S -> a * S ^ 2 + b * S + c <= 0 ->
  0 <= D /\ 0 < x /\ x <= S.
Proof.
  intros Hneg Hc HS Hf.
  assert (HD : b ^ 2 < D) by nra.
  assert (HD0 : 0 <= D) by nra.
  pose proof (sqrt_sqrt D HD0) as Hs. pose proof (sqrt_pos D) as Hs0.
  assert (HD2 : D <= (- 2 * a * S - b) ^ 2) by nra.
  set (s := sqrt D) in *. set (d := D) in *. clearbody s d.
  assert (Hbs : 0 < b + s) by nra.
  assert (Hm : 0 <= - 2 * a * S - b) by nra.
  assert (Hle : s <= - 2 * a * S - b) by (apply Rnot_lt_le; intros Hlt; nra).
  split; [exact HD0|].
  assert (E : - (b + s) / (2 * a) = (b + s) * / (- 2 * a)) by (field; lra).
  assert (Hinv : 0 < / (- 2 * a)) by (apply Rinv_0_lt_compat; lra).
  rewrite E. split.
  - apply Rmult_lt_0_compat; assumption.
  - apply Rmult_le_reg_r with (- 2 * a); [lra|].
    rewrite Rmult_assoc, Rinv_l by lra. lra.
Qed.

End Quadratic.

Section RealModel.

Local Open Scope R_scope.

Lemma bm_a_neg : (bm_a : R) < 0.
Proof. real_arith. lra. Qed.

Lemma gamma_S_pos : 0 < (gamma_S : R).
Proof. real_arith. lra. Qed.

Lemma s_yr_pos : 0 < IZR s_yr.
Proof. real_arith. lra. Qed.

(** On physically valid inputs the coefficient [c] is positive. *)
Lemma bm_c_pos (S z_b : R) : physically_valid S z_b -> 0 < bm_c S z_b.
Proof.
  intros [HS Hz]. real_arith.
  assert (0 < 2009 * (761 / 1000000 * z_b - -20) + 334000) by lra.
  assert (0 < 31 / 1000000 * (2 / 10) * S / 3974) by lra.
  nra.
Qed.

(** The quadratic at the ambient salinity [S], in closed form. *)
Lemma quadratic_at_S (S T z_b : R) :
  bm_a * S ^ 2 + bm_b S T z_b * S + bm_c S z_b
  = S * (gamma_T * (freeze S z_b - T) - gamma_S * IZR c_i * y2 / IZR c_p).
Proof. real_arith. field. Qed.

(** It is not positive when [T] is at or above the freezing temperature. *)
Lemma quadratic_at_S_nonpos (S T z_b : R) :
  0 < S -> freeze S z_b <= T ->
  bm_a * S ^ 2 + bm_b S T z_b * S + bm_c S z_b <= 0.
Proof.
  intros HS HT. rewrite quadratic_at_S.
  assert (H1 : 0 < (gamma_T : R)) by (real_arith; lra).
  assert (H2 : 0 < (gamma_S : R) * IZR c_i * y2 / IZR c_p)
    by (real_arith; lra).
  set (g := (gamma_T : R)) in *.
  set (k := (gamma_S : R) * IZR c_i * y2 / IZR c_p) in *.
  set (f := freeze S z_b) in *. clearbody g k f.
  assert (H3 : g * (f - T) <= 0) by nra.
  nra.
Qed.

(** [basalmelting] over [R], with the radicand and the root spelt out. *)
Lemma basalmelting_R (S T z_b : R) :
  let a := (bm_a : R) in
  let b := bm_b S T z_b in
  let c := bm_c S z_b in
  let S_b := - (b + sqrt (b ^ 2 - 4 * a * c)) / (2 * a) in
  bm_disc a b c = b ^ 2 - 4 * a * c /\
  bm_S_b (basalmelting S T z_b) = S_b /\
  bm_v_b (basalmelting S T z_b) = gamma_S * (S - S_b) / S_b * IZR s_yr.
Proof. cbv zeta. split; [|split]; reflexivity. Qed.

End RealModel.

(** ** Python floats and NumPy scalars: where an exception is raised *)

(** On Python floats [freeze] computes the binary64 value and raises
    nothing. *)
Lemma freeze_py S z_b :
  freeze (PyFloat S) (PyFloat z_b) = PyFloat (freeze S z_b).
Proof. vm_compute. reflexivity. Qed.

Lemma bm_b_py S T z_b :
  bm_b (PyFloat S) (PyFloat T) (PyFloat z_b) = PyFloat (bm_b S T z_b).
Proof. vm_compute. reflexivity. Qed.

(** On Python floats [basalmelting] raises [OverflowError] when [b ** 2]
    overflows, and nothing else; what it returns are NumPy scalars, since
    [np.sqrt] returns one. *)
Lemma basalmelting_py S T z_b :
  basalmelting (PyFloat S) (PyFloat T) (PyFloat z_b)
  = if pow2_overflows (bm_b S T z_b) then melt_all (Raise OverflowError)
    else melt_map NpFloat (basalmelting S T z_b).
Proof.
  unfold basalmelting, bm_disc. rewrite bm_b_py.
  cbn [fpow2 pyval_Arith py_pow2].
  destruct (pow2_overflows (bm_b S T z_b)); vm_compute; reflexivity.
Qed.

(** Once the plume state is a pair of NumPy scalars, nothing raises. *)
Lemma basalmelting_np S T z_b :
  basalmelting (NpFloat S) (NpFloat T) (PyFloat z_b)
  = melt_map NpFloat (basalmelting S T z_b).
Proof. vm_compute. reflexivity. Qed.

Section PythonLoops.

Context {TF : Trig PrimFloat.float}.
Variables S_a T_a Q_g z_b : PrimFloat.float.

Local Abbreviation py_pass :=
  (plume_pass (PyFloat S_a) (PyFloat T_a) (PyFloat Q_g) (PyFloat z_b)).
Local Abbreviation fl_pass := (plume_pass S_a T_a Q_g z_b).
Local Abbreviation py_state :=
  (plume_state (PyFloat S_a) (PyFloat T_a) (PyFloat Q_g) (PyFloat z_b)).
Local Abbreviation fl_state := (plume_state S_a T_a Q_g z_b).

(** A pass from a plume state of Python floats; [Q_a] is a NumPy scalar,
    so the updated state is a pair of NumPy scalars. *)
Lemma pass_py_first s t :
  py_pass (PyFloat s, PyFloat t)
  = if pow2_overflows (bm_b s t z_b) then pass_all (Raise OverflowError)
    else pass_map NpFloat (fl_pass (s, t)).
Proof.
  unfold plume_pass. cbn [fst snd]. rewrite basalmelting_py.
  destruct (pow2_overflows (bm_b s t z_b)); vm_compute; reflexivity.
Qed.

Lemma pass_py_np s t :
  py_pass (NpFloat s, NpFloat t) = pass_map NpFloat (fl_pass (s, t)).
Proof. vm_compute. reflexivity. Qed.

Lemma pass_py_raise e : py_pass (Raise e, Raise e) = pass_all (Raise e).
Proof. vm_compute. reflexivity. Qed.

Lemma py_state_0 :
  py_state 0 = (PyFloat (of_int 30), PyFloat (freeze (of_int 30) z_b)).
Proof. unfold plume_state. cbn [Nat.iter]. rewrite <- freeze_py. reflexivity. Qed.

(** Every pass of the loop: all of them raise, or none does. *)
Lemma py_pass_at k :
  py_pass (py_state k)
  = if first_overflows z_b then pass_all (Raise OverflowError)
    else pass_map NpFloat (fl_pass (fl_state k)).
Proof.
  induction k as [|k IH].
  - rewrite py_state_0, pass_py_first. reflexivity.
  - rewrite !plume_state_S, IH. destruct (first_overflows z_b).
    + cbn [pass_all p_S p_T]. apply pass_py_raise.
    + cbn [pass_map p_S p_T]. apply pass_py_np.
Qed.

Lemma sens_study_py :
  sens_study (PyFloat S_a) (PyFloat T_a) (PyFloat Q_g) (PyFloat z_b)
  = if first_overflows z_b then Some (sens_all (Raise OverflowError))
    else sens_map NpFloat <$> sens_study S_a T_a Q_g z_b.
Proof.
  destruct N_succ as [m HN].
  rewrite (sens_study_pass (PyFloat S_a) (PyFloat T_a) (PyFloat Q_g)
             (PyFloat z_b) m HN).
  rewrite (sens_study_pass S_a T_a Q_g z_b m HN). cbv zeta.
  rewrite py_pass_at. generalize (fl_pass (fl_state m)). intros p.
  destruct (first_overflows z_b); reflexivity.
Qed.

Lemma boxmodel_py :
  boxmodel (PyFloat S_a) (PyFloat T_a) (PyFloat Q_g) (PyFloat z_b)
  = if first_overflows z_b then box_all (Raise OverflowError)
    else box_map NpFloat (boxmodel S_a T_a Q_g z_b).
Proof.
  rewrite !boxmodel_tabulated. cbv zeta. unfold box_all, box_map.
  cbn [box_v_b box_S box_T box_S_b box_T_b box_Q_m box_Q_out].
  rewrite <- !list_fmap_compose.
  destruct (first_overflows z_b) eqn:Hov.
  - f_equal; apply list_eq; intros i; rewrite list_lookup_fmap;
      (destruct (decide (i < N)) as [Hi|Hi];
       [ rewrite lookup_seq_lt, lookup_replicate_2 by exact Hi;
         cbn [fmap option_fmap option_map]; rewrite py_pass_at, Hov; reflexivity
       | rewrite lookup_seq_ge by lia; symmetry;
         apply lookup_replicate_None; lia ]).
  - f_equal; apply list_fmap_ext; intros i j _; cbn [compose];
      rewrite py_pass_at, Hov; reflexivity.
Qed.

End PythonLoops.

(** Every resolution from [1] to [4096], promoted to a float, is not
    zero. *)
Lemma resolution_nonzero X :
  1 <= X <= 4096 -> PrimFloat.is_zero (float_of_Z (Z.of_nat X)) = false.
Proof.
  intros HX.
  assert (H : forallb (fun X => negb (PrimFloat.is_zero
                                        (float_of_Z (Z.of_nat X))))
                (seq 1 4096) = true) by (vm_compute; reflexivity).
  rewrite forallb_forall in H. apply negb_true_iff, H, in_seq. lia.
Qed.

Section PythonGrid.

Context {TF : Trig PrimFloat.float}.
Variables S_bot S_top T_bot T_top Q_g z_b : PrimFloat.float.
Variable Quantity : string.
Variable X : nat.

(** The resolution, promoted to a float, is not zero: true of every
    resolution from [1] up to [2^63 - 1]. *)
Hypothesis HX : PrimFloat.is_zero (float_of_Z (Z.of_nat X)) = false.

Lemma grid_point_py lo hi j :
  grid_point (PyFloat lo) (PyFloat hi) X j = PyFloat (grid_point lo hi X j).
Proof using HX.
  unfold grid_point.
  cbn [fadd fsub fmul fdiv of_int pyval_Arith float_Arith py_binop py_div].
  rewrite HX. reflexivity.
Qed.

Lemma sens_get_raise q e :
  valid_key q = true -> sens_get (sens_all (Raise e)) q = Some (Raise e).
Proof.
  unfold valid_key. rewrite bool_decide_eq_true, !elem_of_cons, elem_of_nil.
  intros [->|[->|[->|[->|[->|[->|[->|[]]]]]]]]; reflexivity.
Qed.

(** A cell of the grid on Python floats: the test is the one on the
    binary64 values, and only the call of [sens_study] can raise. *)
Lemma masked_cell_py i k :
  valid_key Quantity = true ->
  masked_cell (PyFloat S_bot) (PyFloat S_top) (PyFloat T_bot) (PyFloat T_top)
    (PyFloat Q_g) (PyFloat z_b) Quantity X i k
  = let salt := grid_point S_bot S_top X i in
    let temp := grid_point T_bot T_top X k in
    if fge temp (freeze salt z_b) then
      if first_overflows z_b then Some (Raise OverflowError)
      else NpFloat <$> (sens_study salt temp Q_g z_b
                          ≫= fun r => sens_get r Quantity)
    else Some (PyFloat PrimFloat.nan).
Proof using HX.
  intros Hkey. unfold masked_cell. cbv zeta.
  rewrite !grid_point_py.
  change (fadd (fadd (fmul y1 ?s) y2) (fmul y3 ?z)) with (freeze s z).
  rewrite freeze_py.
  change (fge (PyFloat ?t) (PyFloat ?f)) with (fge t f).
  destruct (fge _ _); [|reflexivity].
  rewrite sens_study_py. destruct (first_overflows z_b).
  - cbn [mbind option_bind]. apply sens_get_raise, Hkey.
  - destruct (sens_study _ _ _ _) as [r|]; [|reflexivity].
    cbn [fmap option_fmap option_map mbind option_bind]. apply sens_get_map.
Qed.

End PythonGrid.

(** ** Calls on Python floats: what is returned, and what is raised *)

Lemma call_for_range_S {St : Type} n (body : St -> nat -> outcome St) st :
  call_for_range (S n) body st
  = call_for_range n body st ≫= fun s => body s n.
Proof. unfold call_for_range. rewrite seq_S, foldl_app. reflexivity. Qed.

Lemma call_for_range_ext {St : Type} n (body body' : St -> nat -> outcome St) st :
  (forall s i, body s i = body' s i) ->
  call_for_range n body st = call_for_range n body' st.
Proof.
  intros H. induction n as [|n IH]; [reflexivity|].
  rewrite !call_for_range_S, IH.
  destruct (call_for_range n body' st); [apply H|reflexivity].
Qed.

Lemma bind_Returns {A B : Type} (f : A -> outcome B) (o : outcome A) (b : B) :
  o ≫= f = Returns b -> exists a, o = Returns a /\ f a = Returns b.
Proof. destruct o as [a|e]; [eauto|discriminate]. Qed.

Lemma sens_get_invalid {F : Type} (r : sens_result F) q :
  valid_key q = false -> sens_get r q = None.
Proof.
  unfold valid_key. rewrite bool_decide_eq_false. intros H. unfold sens_get.
  repeat match goal with
         | |- context [String.eqb q ?s] =>
             destruct (String.eqb_spec q s) as [->|_];
             [exfalso; apply H; repeat constructor|]
         end.
  reflexivity.
Qed.

Lemma bm_a_py : (bm_a : pyval) = PyFloat bm_a.
Proof. vm_compute. reflexivity. Qed.

Lemma bm_c_py S z_b :
  bm_c (PyFloat S) (PyFloat z_b) = PyFloat (bm_c S z_b).
Proof. vm_compute. reflexivity. Qed.

Lemma call_freeze_py S z_b :
  call_freeze (PyFloat S) (PyFloat z_b) = Returns (PyFloat (freeze S z_b)).
Proof. vm_compute. reflexivity. Qed.

(** A call of [basalmelting] on Python floats raises [OverflowError] at
    the statement that squares [b], or returns NumPy scalars. *)
Lemma call_basalmelting_py S T z_b :
  call_basalmelting (PyFloat S) (PyFloat T) (PyFloat z_b)
  = if pow2_overflows (bm_b S T z_b) then Raises (Arithmetic OverflowError)
    else Returns (melt_map NpFloat (basalmelting S T z_b)).
Proof.
  change (call_basalmelting (PyFloat S) (PyFloat T) (PyFloat z_b))
    with (a ← eval bm_a;
          b ← eval (bm_b (PyFloat S) (PyFloat T) (PyFloat z_b));
          c ← eval (bm_c (PyFloat S) (PyFloat z_b));
          S_b ← eval (fdiv (fneg (fadd b (np_sqrt (bm_disc a b c))))
                        (fmul (of_int 2) a));
          T_b ← eval (fadd (fadd (fmul y1 S_b) y2) (fmul y3 (PyFloat z_b)));
          v_b ← eval (fdiv (fmul gamma_S (fsub (PyFloat S) S_b)) S_b);
          v_b_yr ← eval (fmul v_b (of_int s_yr));
          Returns {| bm_S_b := S_b; bm_T_b := T_b; bm_v_b := v_b_yr |}).
  rewrite bm_a_py, bm_b_py, bm_c_py.
  cbn [eval mbind outcome_bind]. unfold bm_disc.
  cbn [fpow2 pyval_Arith py_pow2].
  destruct (pow2_overflows (bm_b S T z_b)); vm_compute; reflexivity.
Qed.

Lemma call_basalmelting_np S T z_b :
  call_basalmelting (NpFloat S) (NpFloat T) (PyFloat z_b)
  = Returns (melt_map NpFloat (basalmelting S T z_b)).
Proof. vm_compute. reflexivity. Qed.

Section PythonCalls.

Context {TF : Trig PrimFloat.float}.
Variables S_a T_a Q_g z_b : PrimFloat.float.

Local Abbreviation py_call_pass :=
  (call_pass (PyFloat S_a) (PyFloat T_a) (PyFloat Q_g) (PyFloat z_b)).
Local Abbreviation py_pass :=
  (plume_pass (PyFloat S_a) (PyFloat T_a) (PyFloat Q_g) (PyFloat z_b)).
Local Abbreviation fl_pass := (plume_pass S_a T_a Q_g z_b).
Local Abbreviation py_state :=
  (plume_state (PyFloat S_a) (PyFloat T_a) (PyFloat Q_g) (PyFloat z_b)).
Local Abbreviation fl_state := (plume_state S_a T_a Q_g z_b).

Lemma call_pass_py_first s t :
  py_call_pass (PyFloat s) (PyFloat t)
  = if pow2_overflows (bm_b s t z_b) then Raises (Arithmetic OverflowError)
    else Returns (pass_map NpFloat (fl_pass (s, t))).
Proof.
  unfold call_pass. rewrite call_basalmelting_py.
  destruct (pow2_overflows (bm_b s t z_b)); vm_compute; reflexivity.
Qed.

Lemma call_pass_py_np s t :
  py_call_pass (NpFloat s) (NpFloat t)
  = Returns (pass_map NpFloat (fl_pass (s, t))).
Proof. vm_compute. reflexivity. Qed.

(** The plume state of the value-level loops on Python floats. *)
Lemma py_state_S k :
  first_overflows z_b = false ->
  py_state (S k)
  = (NpFloat (fl_state (S k)).1, NpFloat (fl_state (S k)).2).
Proof.
  intros Hov. rewrite !plume_state_S, py_pass_at, Hov. reflexivity.
Qed.

(** The first pass of a call raises when [b ** 2] overflows in it. *)
Lemma call_pass_raises :
  first_overflows z_b = true ->
  py_call_pass (py_state 0).1 (py_state 0).2
  = Raises (Arithmetic OverflowError).
Proof.
  intros Hov. rewrite py_state_0. cbn [fst snd]. rewrite call_pass_py_first.
  unfold first_overflows in Hov. rewrite Hov. reflexivity.
Qed.

(** When it does not, no pass raises, and each returns what the
    value-level pass computes. *)
Lemma call_pass_at k :
  first_overflows z_b = false ->
  py_call_pass (py_state k).1 (py_state k).2 = Returns (py_pass (py_state k)).
Proof.
  intros Hov. rewrite py_pass_at, Hov. destruct k as [|k].
  - rewrite py_state_0. cbn [fst snd]. rewrite call_pass_py_first.
    unfold first_overflows in Hov. rewrite Hov.
    change (plume_state S_a T_a Q_g z_b 0)
      with (of_int 30 : PrimFloat.float, freeze (of_int 30) z_b).
    reflexivity.
  - rewrite (py_state_S k Hov). cbn [fst snd]. rewrite call_pass_py_np.
    destruct (fl_state (S k)); reflexivity.
Qed.

Local Abbreviation py_boxmodel_body :=
  (boxmodel_body (PyFloat S_a) (PyFloat T_a) (PyFloat Q_g) (PyFloat z_b)).
Local Abbreviation py_call_boxmodel_body :=
  (call_boxmodel_body (PyFloat S_a) (PyFloat T_a) (PyFloat Q_g) (PyFloat z_b)).
Local Abbreviation py_boxmodel_loop :=
  (boxmodel_loop (PyFloat S_a) (PyFloat T_a) (PyFloat Q_g) (PyFloat z_b)).
Local Abbreviation py_sens_loop :=
  (sens_loop (PyFloat S_a) (PyFloat T_a) (PyFloat Q_g) (PyFloat z_b)).
Local Abbreviation py_call_sens_body :=
  (call_sens_body (PyFloat S_a) (PyFloat T_a) (PyFloat Q_g) (PyFloat z_b)).

(** The plume state of the value-level loop of [boxmodel]. *)
Lemma boxmodel_loop_state (fr : box_frame pyval) n :
  (bx_S fr, bx_T fr) = py_state 0 ->
  (bx_S (py_boxmodel_loop n fr), bx_T (py_boxmodel_loop n fr)) = py_state n.
Proof.
  intros H0. induction n as [|n IH]; [exact H0|].
  rewrite boxmodel_loop_S, boxmodel_body_pass. cbv zeta. cbn [bx_S bx_T].
  rewrite IH, plume_state_S. reflexivity.
Qed.

Lemma sens_loop_state (fr : sens_frame pyval) n :
  (ss_S fr, ss_T fr) = py_state 0 ->
  (ss_S (py_sens_loop n fr), ss_T (py_sens_loop n fr)) = py_state n.
Proof.
  intros H0. induction n as [|n IH]; [exact H0|].
  rewrite sens_loop_S, sens_body_pass. cbv zeta. cbn [ss_S ss_T].
  rewrite IH, plume_state_S. reflexivity.
Qed.

(** A pass of the loop of a call that starts in the plume state after [k]
    updates. *)
Lemma call_boxmodel_body_at (fr : box_frame pyval) k i :
  first_overflows z_b = false -> (bx_S fr, bx_T fr) = py_state k ->
  py_call_boxmodel_body fr i = Returns (py_boxmodel_body fr i).
Proof.
  intros Hov Hst. unfold call_boxmodel_body.
  replace (bx_S fr) with (py_state k).1 by (rewrite <- Hst; reflexivity).
  replace (bx_T fr) with (py_state k).2 by (rewrite <- Hst; reflexivity).
  rewrite (call_pass_at k Hov). cbn [mbind outcome_bind].
  rewrite boxmodel_body_pass. cbv zeta. rewrite Hst. reflexivity.
Qed.

Lemma call_sens_body_at (fr : sens_frame pyval) k i :
  first_overflows z_b = false -> (ss_S fr, ss_T fr) = py_state k ->
  py_call_sens_body fr i
  = Returns (sens_body (PyFloat S_a) (PyFloat T_a) (PyFloat Q_g)
               (PyFloat z_b) fr i).
Proof.
  intros Hov Hst. unfold call_sens_body.
  replace (ss_S fr) with (py_state k).1 by (rewrite <- Hst; reflexivity).
  replace (ss_T fr) with (py_state k).2 by (rewrite <- Hst; reflexivity).
  rewrite (call_pass_at k Hov). cbn [mbind outcome_bind].
  rewrite sens_body_pass. cbv zeta. rewrite Hst. reflexivity.
Qed.

(** The loop of a call that does not raise is the value-level loop. *)
Lemma call_boxmodel_loop (fr : box_frame pyval) n :
  first_overflows z_b = false -> (bx_S fr, bx_T fr) = py_state 0 ->
  call_for_range n py_call_boxmodel_body (Returns fr)
  = Returns (py_boxmodel_loop n fr).
Proof.
  intros Hov H0. induction n as [|n IH]; [reflexivity|].
  rewrite call_for_range_S, IH, boxmodel_loop_S. cbn [mbind outcome_bind].
  apply (call_boxmodel_body_at _ n _ Hov), boxmodel_loop_state, H0.
Qed.

Lemma call_sens_loop (fr : sens_frame pyval) n :
  first_overflows z_b = false -> (ss_S fr, ss_T fr) = py_state 0 ->
  call_for_range n py_call_sens_body (Returns fr)
  = Returns (py_sens_loop n fr).
Proof.
  intros Hov H0. induction n as [|n IH]; [reflexivity|].
  rewrite call_for_range_S, IH, sens_loop_S. cbn [mbind outcome_bind].
  apply (call_sens_body_at _ n _ Hov), sens_loop_state, H0.
Qed.

(** A loop whose first pass raises, raises. *)
Lemma call_loop_raises {St : Type} (body : St -> nat -> outcome St) st e n :
  body st 0 = Raises e ->
  call_for_range (S n) body (Returns st) = Raises e.
Proof.
  intros H. induction n as [|n IH]; [exact H|].
  rewrite call_for_range_S, IH. reflexivity.
Qed.

(** A call of [boxmodel] on Python floats raises [OverflowError] in its
    first pass, or returns the arrays of NumPy scalars that the loop on
    binary64 values computes. *)
Lemma call_boxmodel_py :
  call_boxmodel (PyFloat S_a) (PyFloat T_a) (PyFloat Q_g) (PyFloat z_b)
  = if first_overflows z_b then Raises (Arithmetic OverflowError)
    else Returns (box_map NpFloat (boxmodel S_a T_a Q_g z_b)).
Proof.
  unfold call_boxmodel. cbv zeta.
  change (of_int 30 : pyval) with (PyFloat (of_int 30)).
  rewrite call_freeze_py. cbn [mbind outcome_bind].
  set (fr0 := {| bx_S := PyFloat (of_int 30);
                 bx_T := PyFloat (freeze (of_int 30) z_b);
                 v_b_n := replicate N np_nan; S_n := replicate N np_nan;
                 T_n := replicate N np_nan; Q_m_n := replicate N np_nan;
                 Q_out_n := replicate N np_nan; S_b_n := replicate N np_nan;
                 T_b_n := replicate N np_nan |}).
  assert (H0 : (bx_S fr0, bx_T fr0) = py_state 0)
    by (rewrite py_state_0; reflexivity).
  assert (Einit : fr0 = boxmodel_init (PyFloat z_b)).
  { unfold fr0, boxmodel_init. cbv zeta.
    rewrite <- (freeze_py (of_int 30) z_b). reflexivity. }
  destruct (first_overflows z_b) eqn:Hov.
  - destruct (@N_succ) as [m Hm]. rewrite Hm.
    rewrite (call_loop_raises _ fr0 (Arithmetic OverflowError)); [reflexivity|].
    unfold call_boxmodel_body.
    replace (bx_S fr0) with (py_state 0).1 by (rewrite <- H0; reflexivity).
    replace (bx_T fr0) with (py_state 0).2 by (rewrite <- H0; reflexivity).
    rewrite (call_pass_raises Hov). reflexivity.
  - rewrite (call_boxmodel_loop fr0 N Hov H0). cbn [mbind outcome_bind].
    pose proof (boxmodel_py S_a T_a Q_g z_b) as E. rewrite Hov in E.
    rewrite <- E, Einit. reflexivity.
Qed.

(** A call of [sens_study] on Python floats raises [OverflowError] in its
    first pass, or returns the NumPy scalars that the loop on binary64
    values computes. *)
Lemma call_sens_study_py :
  call_sens_study (PyFloat S_a) (PyFloat T_a) (PyFloat Q_g) (PyFloat z_b)
  = if first_overflows z_b then Raises (Arithmetic OverflowError)
    else match sens_study S_a T_a Q_g z_b with
         | Some r => Returns (sens_map NpFloat r)
         | None => Raises UnboundLocalError
         end.
Proof.
  unfold call_sens_study. cbv zeta.
  change (of_int 30 : pyval) with (PyFloat (of_int 30)).
  rewrite call_freeze_py. cbn [mbind outcome_bind].
  set (fr0 := {| ss_S := PyFloat (of_int 30);
                 ss_T := PyFloat (freeze (of_int 30) z_b);
                 ss_loc := None |}).
  assert (H0 : (ss_S fr0, ss_T fr0) = py_state 0)
    by (rewrite py_state_0; reflexivity).
  assert (Einit : fr0 = sens_init (PyFloat z_b)).
  { unfold fr0, sens_init. cbv zeta.
    rewrite <- (freeze_py (of_int 30) z_b). reflexivity. }
  destruct (@N_succ) as [m Hm].
  destruct (first_overflows z_b) eqn:Hov.
  - rewrite Hm.
    rewrite (call_loop_raises _ fr0 (Arithmetic OverflowError)); [reflexivity|].
    unfold call_sens_body.
    replace (ss_S fr0) with (py_state 0).1 by (rewrite <- H0; reflexivity).
    replace (ss_T fr0) with (py_state 0).2 by (rewrite <- H0; reflexivity).
    rewrite (call_pass_raises Hov). reflexivity.
  - rewrite (call_sens_loop fr0 N Hov H0). cbn [mbind outcome_bind].
    rewrite (sens_study_pass S_a T_a Q_g z_b m Hm). cbv zeta.
    rewrite Einit, Hm.
    pose proof (sens_loop_inv (PyFloat S_a) (PyFloat T_a) (PyFloat Q_g)
                  (PyFloat z_b) (S m)) as [Hst Hloc].
    cbv zeta in Hst, Hloc.
    assert (ES : ss_S (py_sens_loop (S m) (sens_init (PyFloat z_b)))
                 = (py_state (S m)).1) by (rewrite <- Hst; reflexivity).
    assert (ET : ss_T (py_sens_loop (S m) (sens_init (PyFloat z_b)))
                 = (py_state (S m)).2) by (rewrite <- Hst; reflexivity).
    rewrite Hloc, ES, ET, plume_state_S, py_pass_at, Hov.
    generalize (fl_pass (fl_state m)). intros p. reflexivity.
Qed.

End PythonCalls.

(** *** The loops of [variation] around cells that may raise *)

Section CallLoops.

Variable cell : nat -> nat -> outcome pyval.
Variable e0 : error.
Hypothesis Hcell : forall i k e, cell i k = Raises e -> e = e0.

Local Abbreviation body i :=
  (fun (cm : list (list pyval)) k => v ← cell i k; Returns (set2 cm i k v)).

(** The inner loop raises exactly when one of its cells does. *)
Lemma call_inner_Raises i cm n e :
  call_for_range n (body i) (Returns cm) = Raises e
  <-> e = e0 /\ exists k, k < n /\ cell i k = Raises e0.
Proof using Hcell.
  revert e. induction n as [|n IH]; intros e.
  - split; [discriminate|intros (_ & k & Hk & _); lia].
  - rewrite call_for_range_S.
    destruct (call_for_range n (body i) (Returns cm)) as [cm1|e1];
      cbn [mbind outcome_bind].
    + destruct (cell i n) as [v|e2] eqn:Ec; cbn [mbind outcome_bind].
      * split; [discriminate|]. intros (_ & k & Hk & Hc).
        destruct (decide (k = n)) as [->|Hne]; [congruence|].
        assert (Hex : e0 = e0 /\ exists k, k < n /\ cell i k = Raises e0)
          by (split; [reflexivity|exists k; split; [lia|exact Hc]]).
        apply IH in Hex. discriminate.
      * pose proof (Hcell i n e2 Ec) as ->. split.
        -- intros [= <-]. split; [reflexivity|]. exists n. split; [lia|exact Ec].
        -- intros (-> & _). reflexivity.
    + destruct (IH e1) as [IH1 _]. destruct (IH1 eq_refl) as (-> & k & Hk & Hc).
      split.
      * intros [= <-]. split; [reflexivity|]. exists k. split; [lia|exact Hc].
      * intros (-> & _). reflexivity.
Qed.

(** So does the outer loop. *)
Lemma call_outer_Raises X m cm e :
  call_for_range m (fun cm i => call_for_range X (body i) (Returns cm))
    (Returns cm) = Raises e
  <-> e = e0 /\ exists i k, i < m /\ k < X /\ cell i k = Raises e0.
Proof using Hcell.
  revert e. induction m as [|m IH]; intros e.
  - split; [discriminate|intros (_ & i & k & Hi & _); lia].
  - rewrite call_for_range_S.
    destruct (call_for_range m _ (Returns cm)) as [cm1|e1];
      cbn [mbind outcome_bind].
    + rewrite call_inner_Raises. split.
      * intros (-> & k & Hk & Hc). split; [reflexivity|].
        exists m, k. repeat split; [lia|exact Hk|exact Hc].
      * intros (-> & i & k & Hi & Hk & Hc). split; [reflexivity|].
        destruct (decide (i = m)) as [->|Hne]; [exists k; auto|].
        assert (Hex : e0 = e0 /\
                      exists i k, i < m /\ k < X /\ cell i k = Raises e0)
          by (split; [reflexivity|
              exists i, k; repeat split; [lia|exact Hk|exact Hc]]).
        apply IH in Hex. discriminate.
    + destruct (IH e1) as [IH1 _].
      destruct (IH1 eq_refl) as (-> & i & k & Hi & Hk & Hc). split.
      * intros [= <-]. split; [reflexivity|].
        exists i, k. repeat split; [lia|exact Hk|exact Hc].
      * intros (-> & _). reflexivity.
Qed.

End CallLoops.

Section PythonCallGrid.

Context {TF : Trig PrimFloat.float}.
Variables S_bot S_top T_bot T_top Q_g z_b : PrimFloat.float.
Variable Quantity : string.
Variable X : nat.
Hypothesis HX : PrimFloat.is_zero (float_of_Z (Z.of_nat X)) = false.

Local Abbreviation cell := (call_cell S_bot S_top T_bot T_top Q_g z_b Quantity X).
Local Abbreviation passes i k :=
  (fge (grid_point T_bot T_top X k)
     (freeze (grid_point S_bot S_top X i) z_b)).

(** The body of the inner loop of a call assigns the cell, or raises what
    evaluating the cell raises. *)
Lemma call_variation_body_cell i cm k :
  call_variation_body (PyFloat S_bot) (PyFloat S_top) (PyFloat T_bot)
    (PyFloat T_top) (PyFloat Q_g) (PyFloat z_b) Quantity X i cm k
  = v ← cell i k; Returns (set2 cm i k v).
Proof using HX.
  unfold call_variation_body, call_cell. cbv zeta.
  change (fadd (PyFloat S_bot)
            (fdiv (fmul (of_int (Z.of_nat i))
                     (fsub (PyFloat S_top) (PyFloat S_bot)))
               (of_int (Z.of_nat X))))
    with (grid_point (PyFloat S_bot) (PyFloat S_top) X i).
  change (fadd (PyFloat T_bot)
            (fdiv (fmul (of_int (Z.of_nat k))
                     (fsub (PyFloat T_top) (PyFloat T_bot)))
               (of_int (Z.of_nat X))))
    with (grid_point (PyFloat T_bot) (PyFloat T_top) X k).
  rewrite !(grid_point_py X HX). cbn [eval mbind outcome_bind].
  change (fadd (fadd (fmul y1 (PyFloat ?s)) y2) (fmul y3 (PyFloat ?z)))
    with (freeze (PyFloat s) (PyFloat z)).
  rewrite freeze_py. cbn [eval mbind outcome_bind].
  change (fge (PyFloat ?t) (PyFloat ?f)) with (fge t f).
  destruct (fge _ _); [|reflexivity].
  rewrite call_sens_study_py. destruct (first_overflows z_b); [reflexivity|].
  destruct (sens_study_total (grid_point S_bot S_top X i)
              (grid_point T_bot T_top X k) Q_g z_b) as [r Hr].
  rewrite Hr. cbn [mbind outcome_bind option_bind]. unfold subscript.
  rewrite sens_get_map. destruct (sens_get r Quantity); reflexivity.
Qed.

(** A cell raises [OverflowError] when its grid point passes the test and
    the first pass of [sens_study] overflows, and [KeyError] when it
    passes, [sens_study] returns and the key is not in the dictionary. *)
Lemma call_cell_Raises i k e :
  cell i k = Raises e
  <-> passes i k = true /\
      (if first_overflows z_b then e = Arithmetic OverflowError
       else valid_key Quantity = false /\ e = KeyError).
Proof.
  unfold call_cell. cbv zeta.
  destruct (fge _ _); [|split; [discriminate|intros [? _]; discriminate]].
  destruct (first_overflows z_b).
  - split; [intros [= <-]; auto|intros [_ ->]; reflexivity].
  - destruct (sens_study_total (grid_point S_bot S_top X i)
                (grid_point T_bot T_top X k) Q_g z_b) as [r Hr].
    rewrite Hr. cbn [mbind option_bind].
    destruct (valid_key Quantity) eqn:Hkey.
    + destruct (sens_get_valid r Quantity Hkey) as [v ->].
      split; [discriminate|intros [_ [? _]]; discriminate].
    + rewrite (sens_get_invalid r Quantity Hkey).
      split; [intros [= <-]; auto|intros [_ [_ ->]]; reflexivity].
Qed.

Lemma call_variation_Raises e :
  call_variation (PyFloat S_bot) (PyFloat S_top) (PyFloat T_bot)
    (PyFloat T_top) (PyFloat Q_g) (PyFloat z_b) Quantity X = Raises e
  <-> (exists i k, i < X /\ k < X /\ passes i k = true) /\
      (if first_overflows z_b then e = Arithmetic OverflowError
       else valid_key Quantity = false /\ e = KeyError).
Proof using HX.
  set (e0 := if first_overflows z_b then Arithmetic OverflowError
             else KeyError).
  assert (Hcell : forall i k e', cell i k = Raises e' -> e' = e0).
  { intros i k e' H. apply call_cell_Raises in H as [_ H]. unfold e0.
    destruct (first_overflows z_b); [exact H|apply H]. }
  pose proof (call_outer_Raises cell e0 Hcell X X (np_zeros2 X) e) as Hloop.
  assert (Hcall : call_variation (PyFloat S_bot) (PyFloat S_top)
                    (PyFloat T_bot) (PyFloat T_top) (PyFloat Q_g)
                    (PyFloat z_b) Quantity X = Raises e
                  <-> e = e0 /\
                      exists i k, i < X /\ k < X /\ cell i k = Raises e0).
  { rewrite <- Hloop. unfold call_variation. cbv zeta.
    rewrite (call_for_range_ext X _
               (fun cm i => call_for_range X
                  (fun cm k => v ← cell i k; Returns (set2 cm i k v))
                  (Returns cm))).
    2:{ intros cm i. apply call_for_range_ext. intros cm1 k.
        apply call_variation_body_cell. }
    destruct (call_for_range X _ (Returns (np_zeros2 X)));
      cbn [mbind outcome_bind]; split; (discriminate || (intros H; exact H)). }
  rewrite Hcall. split.
  - intros (-> & i & k & Hi & Hk & Hc).
    apply call_cell_Raises in Hc as [Hp He]. split; [eauto|].
    unfold e0 in *. destruct (first_overflows z_b); [reflexivity|].
    split; [apply He|reflexivity].
  - intros ((i & k & Hi & Hk & Hp) & He).
    assert (E : e = e0)
      by (unfold e0; destruct (first_overflows z_b); [exact He|apply He]).
    split; [exact E|]. exists i, k. split; [exact Hi|]. split; [exact Hk|].
    apply call_cell_Raises. split; [exact Hp|]. rewrite <- E. exact He.
Qed.

End PythonCallGrid.

(** ** The properties the specification states *)

(** The notebook's one recorded output, cell 20:
    [basalmelting(30, -1.5, -300)["v_b"]] is [16.966925668608255]. *)
Example basalmelting_cell_20 :
  bm_v_b (basalmelting (of_int 30) (-1.5)%float (of_int (-300)))
  = 16.966925668608255%float.
Proof. vm_compute. reflexivity. Qed.

(** C1: for the same inputs [(S_a, T_a, Q_g, z_b)], [sens_study] returns a
    dictionary, and the last entry of each of the seven arrays that
    [boxmodel] returns ([v_b], [S], [T], [S_b], [T_b], [Q_m], [Q_out]) is the
    value [sens_study] returns under the same key. *)
Theorem boxmodel_last_is_sens_study
  {F : Type} {AF : Arith F} {TF : Trig F} {NF : NaN F} (S_a T_a Q_g z_b : F) :
  let b := boxmodel S_a T_a Q_g z_b in
  exists r : sens_result F,
    sens_study S_a T_a Q_g z_b = Some r /\
    last (box_v_b b) = Some (sens_v_b r) /\
    last (box_S b) = Some (sens_S r) /\
    last (box_T b) = Some (sens_T r) /\
    last (box_S_b b) = Some (sens_S_b r) /\
    last (box_T_b b) = Some (sens_T_b r) /\
    last (box_Q_m b) = Some (sens_Q_m r) /\
    last (box_Q_out b) = Some (sens_Q_out r).
Proof.
  destruct N_succ as [m HN].
  cbv zeta. eexists. split; [apply (sens_study_pass _ _ _ _ m HN)|].
  destruct (boxmodel_lengths S_a T_a Q_g z_b)
    as (L1 & L2 & L3 & L4 & L5 & L6 & L7).
  destruct (boxmodel_entries S_a T_a Q_g z_b m)
    as (E1 & E2 & E3 & E4 & E5 & E6 & E7); [lia|].
  cbn [sens_v_b sens_S sens_T sens_S_b sens_T_b sens_Q_m sens_Q_out].
  rewrite (last_of_N _ m HN L1), (last_of_N _ m HN L2), (last_of_N _ m HN L3),
    (last_of_N _ m HN L4), (last_of_N _ m HN L5), (last_of_N _ m HN L6),
    (last_of_N _ m HN L7).
  auto 10.
Qed.

(** C2: for every input [(S, T, z_b)], the boundary temperature that
    [basalmelting] returns is [freeze] of the boundary salinity it returns
    and of the same depth: the two are the same computed value. *)
Theorem basalmelting_T_b_is_freeze
  {F : Type} {AF : Arith F} (S T z_b : F) :
  bm_T_b (basalmelting S T z_b)
  = freeze (bm_S_b (basalmelting S T z_b)) z_b.
Proof. unfold basalmelting, freeze. reflexivity. Qed.

(** C3: on every carrier the boundary salinity that [basalmelting] returns
    is the quadratic formula [-(b + sqrt(b ** 2 - 4 a c)) / (2 a)] on the
    coefficients [a], [b], [c] built in the function, computed with the
    carrier's operations; in exact arithmetic, whenever the radicand is not
    negative, that value is a root of [a x^2 + b x + c]. *)
Theorem basalmelting_S_b_root :
  (forall (F : Type) (AF : Arith F) (S T z_b : F),
     let a : F := bm_a in
     let b : F := bm_b S T z_b in
     let c : F := bm_c S z_b in
     bm_S_b (basalmelting S T z_b)
     = fdiv (fneg (fadd b (np_sqrt (fsub (fpow2 b)
                                      (fmul (fmul (of_int 4) a) c)))))
         (fmul (of_int 2) a)) /\
  (forall S T z_b : R,
     let a : R := bm_a in
     let b : R := bm_b S T z_b in
     let c : R := bm_c S z_b in
     let S_b : R := bm_S_b (basalmelting S T z_b) in
     (0 <= b ^ 2 - 4 * a * c ->
      S_b = - (b + sqrt (b ^ 2 - 4 * a * c)) / (2 * a) /\
      a * S_b ^ 2 + b * S_b + c = 0)%R).
Proof.
  split; [reflexivity|].
  intros S T z_b. cbv zeta. intros HD.
  destruct (basalmelting_R S T z_b) as (_ & -> & _).
  split; [reflexivity|].
  apply quadratic_root; [|exact HD].
  pose proof bm_a_neg. lra.
Qed.

(** C3, in exact arithmetic at [S = 30], [T = -1.5], [z_b = -300]. *)
Lemma basalmelting_S_b_root_witness :
  let a : R := bm_a in
  let b : R := (bm_b 30 (-3 / 2) (-300))%R in
  let c : R := (bm_c 30 (-300))%R in
  let S_b : R := bm_S_b (basalmelting 30 (-3 / 2) (-300))%R in
  (0 <= b ^ 2 - 4 * a * c /\
   S_b = - (b + sqrt (b ^ 2 - 4 * a * c)) / (2 * a) /\
   a * S_b ^ 2 + b * S_b + c = 0)%R.
Proof.
  cbv zeta.
  assert (HD : (0 <= bm_b 30 (-3 / 2) (-300) ^ 2
                     - 4 * bm_a * bm_c 30 (-300))%R)
    by (real_arith; lra).
  split; [exact HD|].
  exact (proj2 basalmelting_S_b_root 30 (-3 / 2) (-300) HD)%R.
Defined.

(** C3 fails on the values the code computes: in binary64, at [S = 30],
    [T = 1e10], [z_b = -300], the radicand is finite and positive, but
    [b ** 2] absorbs [4 a c] in rounding, the square root is [-b], and the
    boundary salinity returned is [0], at which the quadratic has the
    value [c = 0.0175], not [0]; Python floats give the same. *)
Lemma basalmelting_S_b_is_not_a_root :
  let S : PrimFloat.float := of_int 30 in
  let T : PrimFloat.float := 1e10%float in
  let z_b : PrimFloat.float := of_int (-300) in
  let a : PrimFloat.float := bm_a in
  let b : PrimFloat.float := bm_b S T z_b in
  let c : PrimFloat.float := bm_c S z_b in
  let S_b : PrimFloat.float := bm_S_b (basalmelting S T z_b) in
  PrimFloat.is_finite (bm_disc a b c) = true /\
  fge (bm_disc a b c) (of_int 0) = true /\
  S_b = 0%float /\
  fadd (fadd (fmul a (fpow2 S_b)) (fmul b S_b)) c
  = 0.017491738859033719%float /\
  PrimFloat.eqb (fadd (fadd (fmul a (fpow2 S_b)) (fmul b S_b)) c) 0 = false /\
  bm_S_b (basalmelting (PyFloat S) (PyFloat T) (PyFloat z_b)) = NpFloat 0.
Proof. vm_compute. repeat split; reflexivity. Qed.




(** C5: for a key [Quantity] of the dictionary, [variation] returns an [X]
    by [X] array; its entry for grid point [(i, k)], with sampled salinity
    [salt = S_bot + i * (S_top - S_bot) / X] and sampled temperature
    [temp = T_bot + k * (T_top - T_bot) / X], is the no-data value [np.nan]
    when [temp] fails the test [temp >= y1 * salt + y2 + y3 * z_b] against
    the freezing line, and [sens_study(salt, temp, Q_g, z_b)[Quantity]]
    when it passes.  The array is returned transposed: the entry of
    [(i, k)] is at row [k], column [i]. *)
Theorem variation_masks_below_freezing
  {F : Type} {AF : Arith F} {TF : Trig F} {NF : NaN F}
  (S_bot S_top T_bot T_top Q_g z_b : F) (Quantity : string) (X : nat) :
  valid_key Quantity = true ->
  exists colormap : list (list F),
    variation S_bot S_top T_bot T_top Q_g z_b Quantity X = Some colormap /\
    shaped X colormap /\
    forall i k, i < X -> k < X ->
      let salt := grid_point S_bot S_top X i in
      let temp := grid_point T_bot T_top X k in
      get2 colormap k i
      = if fge temp (fadd (fadd (fmul y1 salt) y2) (fmul y3 z_b))
        then sens_study salt temp Q_g z_b ≫= fun r => sens_get r Quantity
        else Some np_nan.
Proof.
  intros Hkey.
  exact (variation_cells S_bot S_top T_bot T_top Q_g z_b Quantity X Hkey).
Qed.

(** C5, on binary64 with the notebook's ranges at resolution [2]. *)
Lemma variation_masks_below_freezing_witness :
  valid_key "v_b" = true /\
  exists colormap : list (list PrimFloat.float),
    variation (TF := taylor_Trig) (of_int 30) (of_int 35) (of_int (-2))
      (of_int 2) (of_int 70) (of_int (-300)) "v_b" 2 = Some colormap /\
    shaped 2 colormap /\
    forall i k, i < 2 -> k < 2 ->
      let salt := grid_point (of_int 30) (of_int 35) 2 i in
      let temp := grid_point (of_int (-2)) (of_int 2) 2 k in
      get2 colormap k i
      = if fge temp (fadd (fadd (fmul y1 salt) y2) (fmul y3 (of_int (-300))))
        then sens_study (TF := taylor_Trig) salt temp (of_int 70)
               (of_int (-300)) ≫= fun r => sens_get r "v_b"
        else Some np_nan.
Proof.
  split; [reflexivity|].
  exact (variation_masks_below_freezing (TF := taylor_Trig) (of_int 30)
           (of_int 35) (of_int (-2)) (of_int 2) (of_int 70) (of_int (-300))
           "v_b" 2 eq_refl).
Defined.

(** C6: [freeze] is affine in both arguments.  For every carrier,
    [freeze(S, z_b)] is [y1 * S + y2 + y3 * z_b]; in exact arithmetic, the
    difference of two values at one depth is [y1] times the difference of
    the salinities, and the difference of two values at one salinity is
    [y3] times the difference of the depths. *)
Theorem freeze_affine :
  (forall (F : Type) (AF : Arith F) (S z_b : F),
     freeze S z_b = fadd (fadd (fmul y1 S) y2) (fmul y3 z_b)) /\
  (forall S1 S2 z_b : R,
     (freeze S1 z_b - freeze S2 z_b = y1 * (S1 - S2))%R) /\
  (forall S z1 z2 : R,
     (freeze S z1 - freeze S z2 = y3 * (z1 - z2))%R).
Proof.
  split; [reflexivity|].
  split; intros; real_arith; lra.
Qed.

(** C7: a call of [boxmodel] on Python floats either raises
    [OverflowError] in its first pass, when [b ** 2] overflows there,
    which the depth [z_b] alone decides, and returns nothing; or it makes
    [N] passes through its loop whatever the values are.  Then each of the
    seven arrays it returns has length [N]; for every [i < N], index [i]
    holds, as NumPy scalars, what pass [i] computed from the plume state
    after [i] updates (for salinity and temperature, the state after
    [i + 1] updates).  A pass at index [i] that returns leaves every other
    index as it was. *)
Theorem boxmodel_makes_N_passes
  {TF : Trig PrimFloat.float} (S_a T_a Q_g z_b : PrimFloat.float) :
  let call := call_boxmodel (PyFloat S_a) (PyFloat T_a) (PyFloat Q_g)
                (PyFloat z_b) in
  let state := plume_state S_a T_a Q_g z_b in
  (first_overflows z_b = true ->
   call = Raises (Arithmetic OverflowError)) /\
  (first_overflows z_b = false ->
   exists r : box_result pyval,
     call = Returns r /\
     (length (box_v_b r) = N /\ length (box_S r) = N /\
      length (box_T r) = N /\ length (box_S_b r) = N /\
      length (box_T_b r) = N /\ length (box_Q_m r) = N /\
      length (box_Q_out r) = N) /\
     forall i, i < N ->
       let p := plume_pass S_a T_a Q_g z_b (state i) in
       (box_S r !! i, box_T r !! i)
         = (Some (NpFloat (state (S i)).1), Some (NpFloat (state (S i)).2)) /\
       box_v_b r !! i = Some (NpFloat (fmul (p_v_b p) (of_int s_yr))) /\
       box_S_b r !! i = Some (NpFloat (p_S_b p)) /\
       box_T_b r !! i = Some (NpFloat (p_T_b p)) /\
       box_Q_m r !! i = Some (NpFloat (p_Q_m p)) /\
       box_Q_out r !! i = Some (NpFloat (p_Q p))) /\
  (forall (fr fr' : box_frame pyval) i j,
     call_boxmodel_body (PyFloat S_a) (PyFloat T_a) (PyFloat Q_g)
       (PyFloat z_b) fr i = Returns fr' ->
     i <> j -> same_at fr fr' j).
Proof.
  cbv zeta. rewrite call_boxmodel_py. split; [|split].
  - intros ->. reflexivity.
  - intros ->. eexists. split; [reflexivity|].
    unfold box_map.
    cbn [box_v_b box_S box_T box_S_b box_T_b box_Q_m box_Q_out].
    split.
    + rewrite !length_fmap. apply boxmodel_lengths.
    + intros i Hi. rewrite !list_lookup_fmap.
      destruct (boxmodel_entries S_a T_a Q_g z_b i Hi)
        as (E1 & E2 & E3 & E4 & E5 & E6 & E7).
      rewrite E1, E2, E3, E4, E5, E6, E7, plume_state_S.
      repeat split; reflexivity.
  - intros fr fr' i j Hret Hij. unfold call_boxmodel_body in Hret.
    destruct (call_pass _ _ _ _ _ _) as [p|e]; [|discriminate].
    cbn [mbind outcome_bind] in Hret. injection Hret as <-.
    unfold same_at. cbn [v_b_n S_n T_n Q_m_n Q_out_n S_b_n T_b_n].
    repeat split; apply list_lookup_insert_ne; exact Hij.
Qed.

(** C7 fails as it is stated for every input: at the depth
    [z_b = -1e165] the first pass of [boxmodel(33.0, -1.0, 70.0, -1e165)]
    squares a [b] that overflows, and the call raises [OverflowError]
    instead of returning seven arrays. *)
Lemma boxmodel_raises_OverflowError :
  call_boxmodel (TF := taylor_Trig) (PyFloat 33) (PyFloat (-1)) (PyFloat 70)
    (PyFloat (-1e165))
  = Raises (Arithmetic OverflowError).
Proof.
  rewrite call_boxmodel_py.
  assert (H : first_overflows (-1e165) = true) by (vm_compute; reflexivity).
  rewrite H. reflexivity.
Qed.

(** C9: the melt velocity that the loop bodies of [boxmodel] and
    [sens_study] compute inline is the one [basalmelting] computes for the
    same plume state before the update.  For every carrier, the inline
    value times [s_yr], which is what both functions return, is
    [basalmelting(S, T, z_b)["v_b"]]: at every index [i < N] of the array
    of [boxmodel], and in the dictionary of [sens_study]; in exact
    arithmetic, the inline value is [basalmelting(S, T, z_b)["v_b"] / s_yr]. *)
Theorem inline_melt_velocity_is_basalmelting :
  (forall (F : Type) (AF : Arith F) (TF : Trig F) (NF : NaN F)
          (S_a T_a Q_g z_b : F) (i : nat),
     i < N ->
     let st := plume_state S_a T_a Q_g z_b i in
     box_v_b (boxmodel S_a T_a Q_g z_b) !! i
     = Some (bm_v_b (basalmelting st.1 st.2 z_b))) /\
  (forall (F : Type) (AF : Arith F) (TF : Trig F) (S_a T_a Q_g z_b : F),
     let st := plume_state S_a T_a Q_g z_b (pred N) in
     sens_v_b <$> sens_study S_a T_a Q_g z_b
     = Some (bm_v_b (basalmelting st.1 st.2 z_b))) /\
  (forall (F : Type) (AF : Arith F) (TF : Trig F) (S_a T_a Q_g z_b : F)
          (fr : box_frame F) (i : nat),
     i < length (v_b_n fr) ->
     (fun v => fmul v (of_int s_yr))
       <$> v_b_n (boxmodel_body S_a T_a Q_g z_b fr i) !! i
     = Some (bm_v_b (basalmelting (bx_S fr) (bx_T fr) z_b))) /\
  (forall (F : Type) (AF : Arith F) (TF : Trig F) (S_a T_a Q_g z_b : F)
          (fr : sens_frame F) (i : nat),
     (fun lc => fmul (lc_v_b lc) (of_int s_yr))
       <$> ss_loc (sens_body S_a T_a Q_g z_b fr i)
     = Some (bm_v_b (basalmelting (ss_S fr) (ss_T fr) z_b))) /\
  (forall (S_a T_a Q_g z_b : R) (fr : box_frame R) (i : nat),
     i < length (v_b_n fr) ->
     v_b_n (boxmodel_body S_a T_a Q_g z_b fr i) !! i
     = Some (bm_v_b (basalmelting (bx_S fr) (bx_T fr) z_b) / IZR s_yr)%R) /\
  (forall (S_a T_a Q_g z_b : R) (fr : sens_frame R) (i : nat),
     lc_v_b <$> ss_loc (sens_body S_a T_a Q_g z_b fr i)
     = Some (bm_v_b (basalmelting (ss_S fr) (ss_T fr) z_b) / IZR s_yr)%R).
Proof.
  assert (Hdiv : forall v : R, (v = v * IZR s_yr / IZR s_yr)%R).
  { intros v. pose proof s_yr_pos. field. lra. }
  split; [|split; [|split; [|split; [|split]]]].
  - intros F AF TF NF S_a T_a Q_g z_b i Hi. cbv zeta.
    destruct (boxmodel_entries S_a T_a Q_g z_b i Hi) as (E1 & _).
    rewrite E1. reflexivity.
  - intros F AF TF S_a T_a Q_g z_b. cbv zeta.
    destruct N_succ as [m HN].
    rewrite (sens_study_pass _ _ _ _ m HN), HN. reflexivity.
  - intros F AF TF S_a T_a Q_g z_b fr i Hi.
    rewrite boxmodel_body_pass. cbv zeta. cbn [v_b_n].
    rewrite list_lookup_insert_eq by exact Hi. reflexivity.
  - intros F AF TF S_a T_a Q_g z_b fr i.
    rewrite sens_body_pass. reflexivity.
  - intros S_a T_a Q_g z_b fr i Hi.
    rewrite boxmodel_body_pass. cbv zeta. cbn [v_b_n].
    rewrite list_lookup_insert_eq by exact Hi. f_equal. apply Hdiv.
  - intros S_a T_a Q_g z_b fr i.
    rewrite sens_body_pass. cbv zeta. cbn [ss_loc fmap option_fmap option_map].
    f_equal. apply Hdiv.
Qed.

(** C10: both loops start from plume salinity [30] and plume temperature
    [freeze(30, z_b)], whatever the ambient inputs; so the first pass of
    [boxmodel] records, and the first pass of [sens_study] binds, the
    boundary values of [basalmelting(30, freeze(30, z_b), z_b)], which
    depend on [z_b] alone. *)
Theorem loops_start_from_fixed_state
  {F : Type} {AF : Arith F} {TF : Trig F} {NF : NaN F} (S_a T_a Q_g z_b : F) :
  let first := basalmelting (of_int 30) (freeze (of_int 30) z_b) z_b in
  let r := boxmodel S_a T_a Q_g z_b in
  let fr := sens_loop S_a T_a Q_g z_b 1 (sens_init z_b) in
  (bx_S (boxmodel_init z_b), bx_T (boxmodel_init z_b))
    = (of_int 30, freeze (of_int 30) z_b) /\
  (ss_S (sens_init z_b), ss_T (sens_init z_b))
    = (of_int 30, freeze (of_int 30) z_b) /\
  (box_S_b r !! 0 = Some (bm_S_b first) /\
   box_T_b r !! 0 = Some (bm_T_b first) /\
   box_v_b r !! 0 = Some (bm_v_b first)) /\
  (lc_S_b <$> ss_loc fr = Some (bm_S_b first) /\
   lc_T_b <$> ss_loc fr = Some (bm_T_b first)) /\
  (forall S_a' T_a' Q_g' : F,
     let r' := boxmodel S_a' T_a' Q_g' z_b in
     box_S_b r' !! 0 = box_S_b r !! 0 /\ box_T_b r' !! 0 = box_T_b r !! 0 /\
     box_v_b r' !! 0 = box_v_b r !! 0).
Proof.
  assert (H0 : 0 < N) by (unfold N; lia).
  cbv zeta. split; [reflexivity|]. split; [reflexivity|].
  destruct (boxmodel_entries S_a T_a Q_g z_b 0 H0)
    as (E1 & _ & _ & E4 & E5 & _).
  split; [rewrite E1, E4, E5; repeat split; reflexivity|].
  split; [split; reflexivity|].
  intros S_a' T_a' Q_g'.
  destruct (boxmodel_entries S_a' T_a' Q_g' z_b 0 H0)
    as (E1' & _ & _ & E4' & E5' & _).
  rewrite E1, E4, E5, E1', E4', E5'. repeat split; reflexivity.
Qed.

(** The stand-in for the C library yields the slope that
    [math.sin(math.atan(0.0075))] prints, [0.007499789071398508]. *)
Example sin_alpha_taylor :
  sin_alpha (TF := taylor_Trig) = 0x1.eb8194c9deba4p-8%float.
Proof. vm_compute. reflexivity. Qed.

(** Ambient water colder than the freezing point, [T_a = -3] below
    [freeze(33, -300)], about [-2.04]: [sens_study] completes with a finite,
    negative melt velocity. *)
Example cold_ambient_water_completes :
  exists v : PrimFloat.float,
    sens_v_b <$> sens_study (TF := pyval_Trig taylor_Trig) (PyFloat 33)
                   (PyFloat (-3)) (PyFloat 70) (PyFloat (-300))
    = Some (NpFloat v) /\
    PrimFloat.is_finite v = true /\ PrimFloat.ltb v 0 = true.
Proof. eexists. vm_compute. repeat split; reflexivity. Qed.

(** C8, refuted as stated: on the Python floats [S = 30.0], [T = 1e160],
    [z_b = -300.0], [basalmelting] does not complete; squaring [b], about
    [-2.2e156], raises [OverflowError]. *)
Lemma basalmelting_raises_OverflowError :
  basalmelting (PyFloat 30) (PyFloat 1e160) (PyFloat (-300))
  = melt_all (Raise OverflowError).
Proof. vm_compute. reflexivity. Qed.

(** C8, amended.  On Python-float scalars, the only error an operation
    raises is [OverflowError], from [b ** 2] in [basalmelting]:
    - [freeze] returns the binary64 value;
    - [basalmelting] raises exactly when its [b] is finite and [b ** 2]
      overflows, and otherwise returns the binary64 values, as NumPy
      scalars;
    - [boxmodel] and [sens_study] raise exactly when their first call
      [basalmelting(30, freeze(30, z_b), z_b)] does, which depends on [z_b]
      alone, and otherwise return the binary64 values;
    - [variation], for a key of the dictionary and a resolution that is not
      zero as a float, samples salinities and temperatures without raising,
      and fills the grid points that pass the test against the freezing
      line with what [sens_study] returns or raises, and the others with
      [np.nan].
    No division raises: the division by a boundary salinity of zero is
    NumPy's, as at [S = 0], [T = 0], [z_b = -300], where [S_b] is [0] and the
    melt velocity is not-a-number. *)
Theorem only_overflow_is_raised
  (TF : Trig PrimFloat.float) (S_a T_a Q_g z_b S T : PrimFloat.float) :
  freeze (PyFloat S) (PyFloat z_b) = PyFloat (freeze S z_b) /\
  basalmelting (PyFloat S) (PyFloat T) (PyFloat z_b)
    = (if pow2_overflows (bm_b S T z_b) then melt_all (Raise OverflowError)
       else melt_map NpFloat (basalmelting S T z_b)) /\
  boxmodel (PyFloat S_a) (PyFloat T_a) (PyFloat Q_g) (PyFloat z_b)
    = (if first_overflows z_b then box_all (Raise OverflowError)
       else box_map NpFloat (boxmodel S_a T_a Q_g z_b)) /\
  sens_study (PyFloat S_a) (PyFloat T_a) (PyFloat Q_g) (PyFloat z_b)
    = (if first_overflows z_b then Some (sens_all (Raise OverflowError))
       else sens_map NpFloat <$> sens_study S_a T_a Q_g z_b) /\
  (forall (S_bot S_top T_bot T_top : PrimFloat.float) (Quantity : string)
          (X : nat),
     valid_key Quantity = true ->
     PrimFloat.is_zero (float_of_Z (Z.of_nat X)) = false ->
     exists colormap : list (list pyval),
       variation (PyFloat S_bot) (PyFloat S_top) (PyFloat T_bot)
         (PyFloat T_top) (PyFloat Q_g) (PyFloat z_b) Quantity X
       = Some colormap /\
       (forall lo hi j,
          grid_point (PyFloat lo) (PyFloat hi) X j
          = PyFloat (grid_point lo hi X j)) /\
       forall i k, i < X -> k < X ->
         let salt := grid_point S_bot S_top X i in
         let temp := grid_point T_bot T_top X k in
         get2 colormap k i
         = if fge temp (freeze salt z_b) then
             if first_overflows z_b then Some (Raise OverflowError)
             else NpFloat <$> (sens_study salt temp Q_g z_b
                                 ≫= fun r => sens_get r Quantity)
           else Some (PyFloat PrimFloat.nan)) /\
  (let m := basalmelting (PyFloat 0) (PyFloat 0) (PyFloat (-300)) in
   bm_S_b m = NpFloat 0 /\ bm_v_b m = NpFloat PrimFloat.nan).
Proof.
  split; [apply freeze_py|]. split; [apply basalmelting_py|].
  split; [apply boxmodel_py|]. split; [apply sens_study_py|].
  split; [|split; vm_compute; reflexivity].
  intros S_bot S_top T_bot T_top Quantity X Hkey HX.
  destruct (variation_cells (PyFloat S_bot) (PyFloat S_top) (PyFloat T_bot)
              (PyFloat T_top) (PyFloat Q_g) (PyFloat z_b) Quantity X Hkey)
    as (cm & Hrun & _ & Hget).
  exists cm. split; [exact Hrun|].
  split; [intros lo hi j; apply grid_point_py, HX|].
  intros i k Hi Hk. rewrite (Hget i k Hi Hk).
  apply masked_cell_py; assumption.
Qed.

(** ** [variation] with any key *)

(** Two arrays of the same shape with the same cells are equal. *)
Lemma shaped_ext {F : Type} X (m m' : list (list F)) :
  shaped X m -> shaped X m' ->
  (forall i k, i < X -> k < X -> get2 m i k = get2 m' i k) -> m = m'.
Proof.
  intros [Hl Hr] [Hl' Hr'] Hget. apply list_eq. intros i.
  destruct (decide (i < X)) as [Hi|Hi].
  - destruct (lookup_lt_is_Some_2 m i) as [row Hrow]; [lia|].
    destruct (lookup_lt_is_Some_2 m' i) as [row' Hrow']; [lia|].
    rewrite Hrow, Hrow'. f_equal. apply list_eq. intros k.
    pose proof (shaped_row X m i row (conj Hl Hr) Hrow) as Hn.
    pose proof (shaped_row X m' i row' (conj Hl' Hr') Hrow') as Hn'.
    destruct (decide (k < X)) as [Hk|Hk].
    + specialize (Hget i k Hi Hk). unfold get2 in Hget.
      rewrite Hrow, Hrow' in Hget. exact Hget.
    + rewrite !lookup_ge_None_2 by lia. reflexivity.
  - rewrite !lookup_ge_None_2 by lia. reflexivity.
Qed.

Lemma get2_replicate {F : Type} X (v : F) i k :
  i < X -> k < X -> get2 (replicate X (replicate X v)) i k = Some v.
Proof.
  intros Hi Hk. unfold get2. rewrite lookup_replicate_2 by exact Hi. cbn.
  apply lookup_replicate_2, Hk.
Qed.

Lemma replicate2_shaped {F : Type} X (v : F) :
  shaped X (replicate X (replicate X v)).
Proof.
  split; [apply length_replicate|].
  apply Forall_replicate, length_replicate.
Qed.

Section VariationAnyKey.

Context {F : Type} {AF : Arith F} {TF : Trig F} {NF : NaN F}.
Variables S_bot S_top T_bot T_top Q_g z_b : F.
Variable Quantity : string.
Variable X : nat.

Local Abbreviation body :=
  (variation_body S_bot S_top T_bot T_top Q_g z_b Quantity X).
Local Abbreviation cell :=
  (masked_cell S_bot S_top T_bot T_top Q_g z_b Quantity X).
Local Abbreviation passes i k :=
  (fge (grid_point T_bot T_top X k)
     (freeze (grid_point S_bot S_top X i) z_b)).

Lemma masked_cell_masked i k : passes i k = false -> cell i k = Some np_nan.
Proof.
  unfold masked_cell, freeze. cbv zeta. intros ->. reflexivity.
Qed.

Hypothesis Hsome : forall i k, i < X -> k < X -> is_Some (cell i k).

(** Where every cell has a value, the loops fill the grid. *)
Lemma inner_loop_some i cm n :
  shaped X cm -> i < X -> n <= X ->
  exists cm', for_range n (body i) (Some cm) = Some cm' /\ shaped X cm' /\
    forall i' k', get2 cm' i' k'
      = if decide (i' = i /\ k' < n) then cell i k' else get2 cm i' k'.
Proof using Hsome.
  intros Hs Hi. induction n as [|n IH]; intros Hn.
  - exists cm. split; [reflexivity|]. split; [exact Hs|].
    intros i' k'. destruct (decide _) as [[_ ?]|]; [lia|reflexivity].
  - destruct IH as (cm1 & Hrun & Hs1 & Hget); [lia|].
    destruct (Hsome i n) as [v Hv]; [lia..|].
    exists (set2 cm1 i n v). rewrite for_range_S, Hrun. cbn.
    rewrite variation_body_cell, Hv. cbn. split; [reflexivity|].
    split; [apply set2_shaped, Hs1|].
    intros i' k'. destruct (decide (i' = i /\ k' = n)) as [[-> ->]|Hne].
    + rewrite (get2_set2_eq X) by (auto; lia).
      destruct (decide _) as [|Hno]; [rewrite Hv; reflexivity|].
      exfalso; apply Hno; lia.
    + rewrite get2_set2_ne by (intros [= ? ?]; tauto). rewrite Hget.
      destruct (decide (i' = i /\ k' < n)) as [[? ?]|H1];
        destruct (decide (i' = i /\ k' < S n)) as [[? ?]|H2];
        try reflexivity; exfalso; [apply H2 | apply H1]; split; auto; lia.
Qed.

Lemma outer_loop_some m :
  m <= X ->
  exists cm', for_range m (fun cm i => for_range X (body i) (Some cm))
                (Some (np_zeros2 X)) = Some cm' /\ shaped X cm' /\
    forall i' k', k' < X -> get2 cm' i' k'
      = if decide (i' < m) then cell i' k' else get2 (np_zeros2 X) i' k'.
Proof using Hsome.
  induction m as [|m IH]; intros Hm.
  - exists (np_zeros2 X). split; [reflexivity|].
    split; [apply np_zeros2_shaped|].
    intros i' k' _. destruct (decide _); [lia|reflexivity].
  - destruct IH as (cm1 & Hrun & Hs1 & Hget); [lia|].
    destruct (inner_loop_some m cm1 X Hs1) as (cm2 & Hrun2 & Hs2 & Hget2);
      [lia..|].
    exists cm2. rewrite for_range_S, Hrun. cbn. split; [exact Hrun2|].
    split; [exact Hs2|]. intros i' k' Hk. rewrite Hget2.
    destruct (decide (i' = m /\ k' < X)) as [[-> _]|H1].
    + destruct (decide _); [reflexivity|lia].
    + rewrite Hget by exact Hk.
      destruct (decide (i' < m)); destruct (decide (i' < S m));
        try reflexivity; lia.
Qed.

Lemma variation_cells_some :
  exists cm, variation S_bot S_top T_bot T_top Q_g z_b Quantity X = Some cm /\
    shaped X cm /\
    forall i k, i < X -> k < X -> get2 cm k i = cell i k.
Proof using Hsome.
  destruct (outer_loop_some X) as (cm & Hrun & Hs & Hget); [lia|].
  exists (transpose X cm). unfold variation. cbv zeta. rewrite Hrun. cbn.
  split; [reflexivity|]. split; [apply transpose_shaped, Hs|].
  intros i k Hi Hk. rewrite (get2_transpose X) by assumption.
  rewrite Hget by exact Hk. destruct (decide _); [reflexivity|lia].
Qed.

End VariationAnyKey.

(** A grid whose cells all hold the same value. *)
Lemma variation_constant
  {F : Type} {AF : Arith F} {TF : Trig F} {NF : NaN F}
  (S_bot S_top T_bot T_top Q_g z_b : F) (Quantity : string) (X : nat) (v : F) :
  (forall i k, i < X -> k < X ->
     masked_cell S_bot S_top T_bot T_top Q_g z_b Quantity X i k = Some v) ->
  variation S_bot S_top T_bot T_top Q_g z_b Quantity X
  = Some (replicate X (replicate X v)).
Proof.
  intros Hc.
  destruct (variation_cells_some S_bot S_top T_bot T_top Q_g z_b Quantity X)
    as (cm & -> & Hs & Hget).
  { intros i k Hi Hk. rewrite Hc by assumption. eauto. }
  f_equal. apply (shaped_ext X); [exact Hs|apply replicate2_shaped|].
  intros k i Hk Hi. rewrite Hget, Hc by assumption.
  symmetry. apply get2_replicate; assumption.
Qed.

Lemma sens_get_all {F : Type} (v : F) q :
  valid_key q = true -> sens_get (sens_all v) q = Some v.
Proof.
  unfold valid_key. rewrite bool_decide_eq_true, !elem_of_cons, elem_of_nil.
  intros [->|[->|[->|[->|[->|[->|[->|[]]]]]]]]; reflexivity.
Qed.

(** X1: a call of [variation] on Python floats, with a resolution that is
    not zero as a float, raises exactly when at least one grid point
    passes the test [temp >= y1 * salt + y2 + y3 * z_b] against the
    freezing line, which is [freeze salt z_b] written out, and either the
    first pass of [sens_study] overflows at the depth [z_b], which raises
    [OverflowError] before the subscript is evaluated, or it does not and
    the key is not one of the seven of the dictionary, which raises the
    [KeyError] of the subscript.  When no grid point passes the test, or
    nothing overflows and the key is in the dictionary, the call returns
    an array. *)
Theorem variation_raises
  {TF : Trig PrimFloat.float}
  (S_bot S_top T_bot T_top Q_g z_b : PrimFloat.float) (Quantity : string)
  (X : nat) :
  PrimFloat.is_zero (float_of_Z (Z.of_nat X)) = false ->
  let call := call_variation (PyFloat S_bot) (PyFloat S_top) (PyFloat T_bot)
                (PyFloat T_top) (PyFloat Q_g) (PyFloat z_b) Quantity X in
  let passes := exists i k, i < X /\ k < X /\
                  fge (grid_point T_bot T_top X k)
                    (freeze (grid_point S_bot S_top X i) z_b) = true in
  (forall e, call = Raises e
             <-> passes /\
                 (if first_overflows z_b then e = Arithmetic OverflowError
                  else valid_key Quantity = false /\ e = KeyError)) /\
  (~ passes \/ (first_overflows z_b = false /\ valid_key Quantity = true) ->
   exists colormap, call = Returns colormap).
Proof.
  intros HX. cbv zeta.
  pose proof (call_variation_Raises S_bot S_top T_bot T_top Q_g z_b
                Quantity X HX) as Hraises.
  split; [exact Hraises|].
  intros H.
  destruct (call_variation _ _ _ _ _ _ _ _) as [cm|e]; [eauto|].
  exfalso. destruct (Hraises e) as [Hr _].
  destruct (Hr eq_refl) as [Hp He].
  destruct H as [H|[Hov Hkey]]; [exact (H Hp)|].
  rewrite Hov, Hkey in He. destruct He as [He _]. discriminate.
Qed.

(** X1, on the single grid point of
    [variation(30.0, 35.0, -2.0, 2.0, 70.0, -1e165, "depth", 1)]: the key
    is wrong, but the call of [sens_study] raises first. *)
Lemma variation_raises_witness :
  PrimFloat.is_zero (float_of_Z (Z.of_nat 1)) = false /\
  call_variation (TF := taylor_Trig) (PyFloat 30) (PyFloat 35)
    (PyFloat (-2)) (PyFloat 2) (PyFloat 70) (PyFloat (-1e165)) "depth" 1
  = Raises (Arithmetic OverflowError).
Proof.
  assert (HX : PrimFloat.is_zero (float_of_Z (Z.of_nat 1)) = false)
    by reflexivity.
  split; [exact HX|].
  apply (proj1 (variation_raises (TF := taylor_Trig) 30 35 (-2) 2 70
                  (-1e165) "depth" 1 HX)).
  split.
  - exists 0, 0. split; [lia|]. split; [lia|]. vm_compute. reflexivity.
  - assert (H : first_overflows (-1e165) = true) by (vm_compute; reflexivity).
    rewrite H. reflexivity.
Defined.

(** X2: when no grid point passes the test against the freezing line,
    [variation] returns the [X] by [X] array of no-data values, whatever
    the key. *)
Theorem variation_all_masked
  {F : Type} {AF : Arith F} {TF : Trig F} {NF : NaN F}
  (S_bot S_top T_bot T_top Q_g z_b : F) (Quantity : string) (X : nat) :
  (forall i k, i < X -> k < X ->
     fge (grid_point T_bot T_top X k)
       (freeze (grid_point S_bot S_top X i) z_b) = false) ->
  variation S_bot S_top T_bot T_top Q_g z_b Quantity X
  = Some (replicate X (replicate X np_nan)).
Proof.
  intros Hp. apply variation_constant.
  intros i k Hi Hk. apply masked_cell_masked. auto.
Qed.

(** X2, on a 2 by 2 grid of temperatures between -5 and -3 degrees, with
    a key that is not in the dictionary. *)
Lemma variation_all_masked_witness :
  (forall i k, i < 2 -> k < 2 ->
     fge (grid_point (of_int (-5)) (of_int (-3)) 2 k)
       (freeze (grid_point (of_int 30) (of_int 35) 2 i) (of_int (-300)))
     = false) /\
  variation (TF := taylor_Trig) (of_int 30) (of_int 35) (of_int (-5))
    (of_int (-3)) (of_int 70) (of_int (-300)) "depth" 2
  = Some (replicate 2 (replicate 2 PrimFloat.nan)).
Proof.
  assert (Hp : forall i k, i < 2 -> k < 2 ->
            fge (grid_point (of_int (-5)) (of_int (-3)) 2 k)
              (freeze (grid_point (of_int 30) (of_int 35) 2 i)
                 (of_int (-300)))
            = false).
  { intros [|[|i]] [|[|k]] Hi Hk; try lia; vm_compute; reflexivity. }
  split; [exact Hp|].
  exact (variation_all_masked (TF := taylor_Trig) (of_int 30) (of_int 35)
           (of_int (-5)) (of_int (-3)) (of_int 70) (of_int (-300))
           "depth" 2 Hp).
Defined.

(** ** Further properties of [basalmelting], in exact arithmetic *)

Section QuadraticSign.

Local Open Scope R_scope.

Variables a b c : R.
Hypothesis Ha : a < 0.
Hypothesis Hc : 0 < c.

Local Abbreviation D := (b ^ 2 - 4 * a * c).
Local Abbreviation x := (- (b + sqrt D) / (2 * a)).

(** The quadratic is positive below the selected root and negative above
    it, on the positive axis. *)
Lemma root_position S :
  0 < S ->
  (a * S ^ 2 + b * S + c < 0 <-> x < S) /\
  (a * S ^ 2 + b * S + c = 0 <-> x = S) /\
  (0 < a * S ^ 2 + b * S + c <-> S < x).
Proof using Ha Hc.
  intros HS.
  assert (HD : b ^ 2 < D) by nra.
  assert (HD0 : 0 <= D) by nra.
  pose proof (sqrt_sqrt D HD0) as Hs. pose proof (sqrt_pos D) as Hs0.
  set (s := sqrt D) in *.
  assert (Hbs : 0 < b + s) by nra.
  assert (Hsb : 0 < s - b) by nra.
  assert (E : - (b + s) / (2 * a) = (b + s) * / (- 2 * a)) by (field; lra).
  assert (Hinv : 0 < / (- 2 * a)) by (apply Rinv_0_lt_compat; lra).
  rewrite E. set (r := (b + s) * / (- 2 * a)).
  assert (Hr : r * (- 2 * a) = b + s)
    by (unfold r; rewrite Rmult_assoc, Rinv_l by lra; lra).
  assert (Hrpos : 0 < r) by (unfold r; apply Rmult_lt_0_compat; assumption).
  clearbody r.
  (* the quadratic factors as [a (S - r) (S - r')] with [r' < 0] *)
  assert (F : 4 * a * (a * S ^ 2 + b * S + c)
              = (2 * a * S + b + s) * (2 * a * S + b - s)) by nra.
  assert (F1 : 2 * a * S + b + s = - 2 * a * (r - S)) by nra.
  assert (F2 : 2 * a * S + b - s < 0) by nra.
  set (q := a * S ^ 2 + b * S + c) in *. clearbody q.
  set (m := 2 * a * S + b - s) in *. clearbody m.
  rewrite F1 in F.
  assert (G : 2 * q = (r - S) * - m).
  { apply Rmult_eq_reg_l with (2 * a); [|lra]. lra. }
  assert (Hm : 0 < - m) by lra. set (p := - m) in *. clearbody p.
  clear F F1 F2 Hr E Hs Hsb Hbs HD HD0.
  repeat split; intros H.
  - apply Rnot_le_lt. intros Hle. assert (0 <= (r - S) * p) by nra. lra.
  - assert ((r - S) * p < 0) by nra. lra.
  - assert (Hz : (r - S) * p = 0) by lra.
    apply Rmult_integral in Hz. lra.
  - subst S. lra.
  - apply Rnot_le_lt. intros Hle. assert ((r - S) * p <= 0) by nra. lra.
  - assert (0 < (r - S) * p) by nra. lra.
Qed.

(** The selected root is positive. *)
Lemma root_positive : 0 < x.
Proof using Ha Hc.
  assert (HD : b ^ 2 < D) by nra.
  assert (HD0 : 0 <= D) by nra.
  pose proof (sqrt_sqrt D HD0) as Hs. pose proof (sqrt_pos D) as Hs0.
  set (s := sqrt D) in *.
  assert (Hbs : 0 < b + s) by nra.
  assert (E : - (b + s) / (2 * a) = (b + s) * / (- 2 * a)) by (field; lra).
  rewrite E. apply Rmult_lt_0_compat; [exact Hbs|].
  apply Rinv_0_lt_compat; lra.
Qed.

(** The root grows with [b]. *)
Lemma root_increasing b' :
  b' < b ->
  - (b' + sqrt (b' ^ 2 - 4 * a * c)) / (2 * a) < x.
Proof using Ha Hc.
  intros Hb.
  assert (HD0 : 0 <= D) by nra.
  assert (HD0' : 0 <= b' ^ 2 - 4 * a * c) by nra.
  pose proof (sqrt_sqrt D HD0) as Hs. pose proof (sqrt_pos D) as Hs0.
  pose proof (sqrt_sqrt _ HD0') as Hs'.
  pose proof (sqrt_pos (b' ^ 2 - 4 * a * c)) as Hs0'.
  set (s := sqrt D) in *. set (s' := sqrt (b' ^ 2 - 4 * a * c)) in *.
  clearbody s s'.
  assert (H1 : 0 < s + b) by nra.
  assert (H2 : 0 < s' + b') by nra.
  assert (Hlt : b' + s' < b + s).
  { apply Rnot_le_lt. intros Hle.
    assert (Hd : 0 < s' - s) by lra.
    assert (Hp : (s' - s) * (s' + s) = - (b - b') * (b + b')) by nra.
    assert (Hq : (b - b') * (s' + s) <= (s' - s) * (s' + s)) by nra.
    nra. }
  assert (Hinv : 0 < / (- 2 * a)) by (apply Rinv_0_lt_compat; lra).
  assert (E : forall t, - t / (2 * a) = t * / (- 2 * a))
    by (intros t; field; lra).
  rewrite !E. apply Rmult_lt_compat_r; assumption.
Qed.

End QuadraticSign.

Section MeltRate.

Local Open Scope R_scope.

(** A positive factor keeps the sign. *)
Lemma pos_mult_sign (p w : R) :
  0 < p ->
  (p * w < 0 <-> w < 0) /\ (p * w = 0 <-> w = 0) /\ (0 < p * w <-> 0 < w).
Proof.
  intros Hp. repeat split; intros H.
  - apply Rnot_le_lt. intros Hw. assert (0 <= p * w) by nra. lra.
  - nra.
  - apply Rmult_integral in H. lra.
  - subst w. ring.
  - apply Rnot_le_lt. intros Hw. assert (p * w <= 0) by nra. lra.
  - nra.
Qed.

Lemma gamma_T_pos : 0 < (gamma_T : R).
Proof. real_arith. lra. Qed.

Lemma y1_neg : (y1 : R) < 0.
Proof. real_arith. lra. Qed.

(** The sign of the quadratic at the ambient salinity. *)
Lemma quadratic_at_S_sign (S T z_b : R) :
  0 < S ->
  let q := bm_a * S ^ 2 + bm_b S T z_b * S + bm_c S z_b in
  (q < 0 <-> freeze S z_b - melt_offset < T) /\
  (q = 0 <-> T = freeze S z_b - melt_offset) /\
  (0 < q <-> T < freeze S z_b - melt_offset).
Proof.
  intros HS. cbv zeta. rewrite quadratic_at_S. unfold melt_offset.
  pose proof gamma_T_pos as Hg.
  assert (Hk : 0 < (gamma_S : R) * IZR c_i * y2 / IZR c_p)
    by (real_arith; lra).
  assert (Hcp : 0 < IZR c_p) by (real_arith; lra).
  set (g := (gamma_T : R)) in *.
  set (f := freeze S z_b) in *.
  assert (E : (gamma_S : R) * IZR c_i * y2 / (IZR c_p * g)
              = (gamma_S : R) * IZR c_i * y2 / IZR c_p * / g)
    by (field; lra).
  rewrite E. set (k := (gamma_S : R) * IZR c_i * y2 / IZR c_p) in *.
  assert (Hgi : 0 < / g) by (apply Rinv_0_lt_compat; exact Hg).
  assert (Hkg : k * / g * g = k) by (field; lra).
  set (d := k * / g) in *. clearbody d k f g.
  set (e := g * (f - T) - k).
  assert (He : e = g * (f - d - T)) by (unfold e; nra).
  clearbody e. subst e.
  replace (S * (g * (f - d - T))) with (S * g * (f - d - T)) by ring.
  destruct (pos_mult_sign (S * g) (f - d - T)) as (H1 & H2 & H3);
    [apply Rmult_lt_0_compat; assumption|].
  rewrite H1, H2, H3. repeat split; intros H; lra.
Qed.

Lemma melt_offset_pos : 0 < melt_offset.
Proof.
  unfold melt_offset.
  apply Rdiv_lt_0_compat; real_arith; lra.
Qed.

End MeltRate.

(** The melt velocity in terms of the root: a positive factor times
    [(S - S_b) / S_b]. *)
Lemma melt_velocity_R (S T z_b : R) :
  bm_v_b (basalmelting S T z_b)
  = (gamma_S * IZR s_yr
     * ((S - bm_S_b (basalmelting S T z_b)) / bm_S_b (basalmelting S T z_b)))%R.
Proof.
  destruct (basalmelting_R S T z_b) as (_ & -> & ->).
  unfold Rdiv. ring.
Qed.

(** The boundary temperature is on the freezing line at the boundary
    salinity. *)
Lemma basalmelting_T_b_eq {F : Type} {AF : Arith F} (S T z_b : F) :
  bm_T_b (basalmelting S T z_b)
  = freeze (bm_S_b (basalmelting S T z_b)) z_b.
Proof. reflexivity. Qed.

(** The boundary salinity is positive on physically valid inputs. *)
Lemma S_b_pos (S T z_b : R) :
  physically_valid S z_b -> (0 < bm_S_b (basalmelting S T z_b))%R.
Proof.
  intros Hv. destruct (basalmelting_R S T z_b) as (_ & -> & _).
  apply root_positive; [exact bm_a_neg | apply bm_c_pos, Hv].
Qed.

(** Where the boundary salinity lies relative to the plume's. *)
Lemma S_b_vs_S (S T z_b : R) :
  physically_valid S z_b ->
  let x := bm_S_b (basalmelting S T z_b) in
  ((x < S <-> freeze S z_b - melt_offset < T) /\
   (x = S <-> T = freeze S z_b - melt_offset) /\
   (S < x <-> T < freeze S z_b - melt_offset))%R.
Proof.
  intros Hv. cbv zeta.
  destruct (quadratic_at_S_sign S T z_b (proj1 Hv)) as (Q1 & Q2 & Q3).
  rewrite <- Q1, <- Q2, <- Q3. clear Q1 Q2 Q3.
  destruct (root_position bm_a (bm_b S T z_b) (bm_c S z_b) bm_a_neg
              (bm_c_pos S z_b Hv) S (proj1 Hv)) as (P1 & P2 & P3).
  rewrite P1, P2, P3.
  destruct (basalmelting_R S T z_b) as (_ & -> & _).
  repeat split; intros H; exact H.
Qed.

(** X3: in exact arithmetic, on physically valid inputs the melt velocity
    of [basalmelting] changes sign not on the freezing line but
    [melt_offset] below it: it is positive exactly when
    [T > freeze(S, z_b) - melt_offset], zero exactly at equality, and
    negative (freezing) exactly below; at the freezing temperature itself
    it is positive. *)
Theorem melt_velocity_sign (S T z_b : R) :
  physically_valid S z_b ->
  let v := bm_v_b (basalmelting S T z_b) in
  ((0 < v <-> freeze S z_b - melt_offset < T) /\
   (v = 0 <-> T = freeze S z_b - melt_offset) /\
   (v < 0 <-> T < freeze S z_b - melt_offset) /\
   0 < melt_offset /\
   0 < bm_v_b (basalmelting S (freeze S z_b) z_b))%R.
Proof.
  intros Hv. cbv zeta.
  assert (Hsign : forall T',
    let v := bm_v_b (basalmelting S T' z_b) in
    ((0 < v <-> freeze S z_b - melt_offset < T') /\
     (v = 0 <-> T' = freeze S z_b - melt_offset) /\
     (v < 0 <-> T' < freeze S z_b - melt_offset))%R).
  { intros T'. cbv zeta.
    pose proof (S_b_pos S T' z_b Hv) as Hx.
    destruct (S_b_vs_S S T' z_b Hv) as (Q1 & Q2 & Q3).
    rewrite <- Q1, <- Q2, <- Q3. clear Q1 Q2 Q3.
    rewrite melt_velocity_R.
    set (x := bm_S_b (basalmelting S T' z_b)) in *. clearbody x.
    assert (Hk : (0 < gamma_S * IZR s_yr * / x)%R).
    { apply Rmult_lt_0_compat; [|apply Rinv_0_lt_compat, Hx].
      apply Rmult_lt_0_compat; [apply gamma_S_pos | apply s_yr_pos]. }
    replace (gamma_S * IZR s_yr * ((S - x) / x))%R
      with (gamma_S * IZR s_yr * / x * (S - x))%R by (unfold Rdiv; ring).
    destruct (pos_mult_sign _ (S - x)%R Hk) as (H1 & H2 & H3).
    rewrite H1, H2, H3. repeat split; intros H; lra. }
  pose proof melt_offset_pos as Ho.
  destruct (Hsign T) as (H1 & H2 & H3).
  split; [exact H1|]. split; [exact H2|]. split; [exact H3|].
  split; [exact Ho|].
  destruct (Hsign (freeze S z_b)) as (H4 & _). apply H4. lra.
Qed.

(** X3, at [S = 30], [T = -1.5], [z_b = -300]. *)
Lemma melt_velocity_sign_witness :
  physically_valid 30 (-300) /\
  let v := bm_v_b (basalmelting 30 (-3 / 2) (-300))%R in
  ((0 < v <-> freeze 30 (-300) - melt_offset < -3 / 2) /\
   (v = 0 <-> -3 / 2 = freeze 30 (-300) - melt_offset) /\
   (v < 0 <-> -3 / 2 < freeze 30 (-300) - melt_offset) /\
   0 < melt_offset /\
   0 < bm_v_b (basalmelting 30 (freeze 30 (-300)) (-300)))%R.
Proof.
  assert (Hv : physically_valid 30 (-300)) by (unfold physically_valid; lra).
  split; [exact Hv|].
  exact (melt_velocity_sign 30 (-3 / 2) (-300) Hv).
Defined.

(** X4: in exact arithmetic, on physically valid inputs the melt velocity
    of [basalmelting] grows strictly with the plume temperature [T]. *)
Theorem melt_velocity_increasing (S T1 T2 z_b : R) :
  physically_valid S z_b ->
  (T1 < T2)%R ->
  (bm_v_b (basalmelting S T1 z_b) < bm_v_b (basalmelting S T2 z_b))%R.
Proof.
  intros Hv HT.
  pose proof (S_b_pos S T1 z_b Hv) as Hx1.
  pose proof (S_b_pos S T2 z_b Hv) as Hx2.
  assert (Hb : (bm_b S T2 z_b < bm_b S T1 z_b)%R).
  { pose proof gamma_T_pos as Hg. unfold bm_b.
    cbn [fadd fsub fmul fdiv R_Arith].
    set (g := (gamma_T : R)) in *. clearbody g.
    apply Rplus_lt_compat_r. apply Rmult_lt_compat_l; lra. }
  pose proof (root_increasing bm_a (bm_b S T1 z_b) (bm_c S z_b) bm_a_neg
                (bm_c_pos S z_b Hv) (bm_b S T2 z_b) Hb) as Hx.
  rewrite !melt_velocity_R.
  destruct (basalmelting_R S T1 z_b) as (_ & E1 & _).
  destruct (basalmelting_R S T2 z_b) as (_ & E2 & _).
  rewrite E1 in Hx1 |- *. rewrite E2 in Hx2 |- *.
  set (x1 := (- (bm_b S T1 z_b
                 + sqrt (bm_b S T1 z_b ^ 2 - 4 * bm_a * bm_c S z_b))
              / (2 * bm_a))%R) in *.
  set (x2 := (- (bm_b S T2 z_b
                 + sqrt (bm_b S T2 z_b ^ 2 - 4 * bm_a * bm_c S z_b))
              / (2 * bm_a))%R) in *.
  clearbody x1 x2.
  apply Rmult_lt_compat_l;
    [apply Rmult_lt_0_compat; [apply gamma_S_pos | apply s_yr_pos]|].
  assert (HS : (0 < S)%R) by apply Hv.
  assert (E : forall x : R, (x <> 0 -> (S - x) / x = S * / x - 1)%R)
    by (intros x Hx0; field; exact Hx0).
  rewrite !E by lra.
  apply Rplus_lt_compat_r, Rmult_lt_compat_l; [exact HS|].
  apply Rinv_lt_contravar; [apply Rmult_lt_0_compat; assumption | exact Hx].
Qed.

(** X4, at [S = 30], [z_b = -300], from [T = -1.5] to [T = 0]. *)
Lemma melt_velocity_increasing_witness :
  physically_valid 30 (-300) /\ (-3 / 2 < 0)%R /\
  (bm_v_b (basalmelting 30 (-3 / 2) (-300))
   < bm_v_b (basalmelting 30 0 (-300)))%R.
Proof.
  assert (Hv : physically_valid 30 (-300)) by (unfold physically_valid; lra).
  assert (HT : (-3 / 2 < 0)%R) by lra.
  split; [exact Hv|]. split; [exact HT|].
  exact (melt_velocity_increasing 30 (-3 / 2) 0 (-300) Hv HT).
Defined.

(** X5: in exact arithmetic, on physically valid inputs the radicand of
    [basalmelting] is positive whatever the temperature, the boundary
    salinity is positive and the boundary temperature is below the
    freezing temperature of fresh water at that depth; when [T] is at or
    above [freeze(S, z_b) - melt_offset], the boundary salinity is at most
    the plume's and the boundary temperature at least the plume's freezing
    temperature. *)
Theorem boundary_values_bounded (S T z_b : R) :
  physically_valid S z_b ->
  let m := basalmelting S T z_b in
  (0 < bm_disc bm_a (bm_b S T z_b) (bm_c S z_b) /\
   0 < bm_S_b m /\ bm_T_b m < freeze 0 z_b /\
   (freeze S z_b - melt_offset <= T ->
    bm_S_b m <= S /\ freeze S z_b <= bm_T_b m))%R.
Proof.
  intros Hv. cbv zeta.
  pose proof (S_b_pos S T z_b Hv) as Hx.
  pose proof y1_neg as Hy.
  rewrite basalmelting_T_b_eq.
  split.
  { destruct (basalmelting_R S T z_b) as (-> & _).
    pose proof bm_a_neg as Ha. pose proof (bm_c_pos S z_b Hv) as Hc.
    set (a := (bm_a : R)) in *. set (b := bm_b S T z_b).
    set (c := bm_c S z_b) in *. clearbody a b c. nra. }
  split; [exact Hx|]. split.
  - unfold freeze. cbn [fadd fmul R_Arith].
    set (y := (y1 : R)) in *. clearbody y.
    set (x := bm_S_b (basalmelting S T z_b)) in *. clearbody x. nra.
  - intros HT.
    assert (Hle : (bm_S_b (basalmelting S T z_b) <= S)%R).
    { destruct (S_b_vs_S S T z_b Hv) as (Q1 & Q2 & _).
      destruct HT as [HT|HT].
      - apply Rlt_le, Q1, HT.
      - apply Req_le, Q2. symmetry. exact HT. }
    split; [exact Hle|].
    unfold freeze. cbn [fadd fmul R_Arith].
    set (y := (y1 : R)) in *. clearbody y.
    set (x := bm_S_b (basalmelting S T z_b)) in *. clearbody x. nra.
Qed.

(** X5, at [S = 30], [T = -1.5], [z_b = -300]. *)
Lemma boundary_values_bounded_witness :
  physically_valid 30 (-300) /\
  let m := (basalmelting 30 (-3 / 2) (-300))%R in
  (0 < bm_disc bm_a (bm_b 30 (-3 / 2) (-300)) (bm_c 30 (-300)) /\
   0 < bm_S_b m /\ bm_T_b m < freeze 0 (-300) /\
   (freeze 30 (-300) - melt_offset <= -3 / 2 ->
    bm_S_b m <= 30 /\ freeze 30 (-300) <= bm_T_b m))%R.
Proof.
  assert (Hv : physically_valid 30 (-300)) by (unfold physically_valid; lra).
  split; [exact Hv|].
  exact (boundary_values_bounded 30 (-3 / 2) (-300) Hv).
Defined.

(** X6: in exact arithmetic, on physically valid inputs the values
    [basalmelting] returns satisfy the salt balance
    [v_b * S_b = gamma_S * (S - S_b) * s_yr], and the heat balance
    [c_p * gamma_T * (T - T_b) * S_b
       = gamma_S * (S - S_b) * (L + c_i * (T_b - T_i))]
    up to the term [gamma_S * c_i * y2 * S]. *)
Theorem basalmelting_balances (S T z_b : R) :
  physically_valid S z_b ->
  let m := basalmelting S T z_b in
  (bm_v_b m * bm_S_b m = gamma_S * (S - bm_S_b m) * IZR s_yr /\
   IZR c_p * gamma_T * (T - bm_T_b m) * bm_S_b m
   = gamma_S * (S - bm_S_b m) * (L + IZR c_i * (bm_T_b m - IZR T_i))
     - gamma_S * IZR c_i * y2 * S)%R.
Proof.
  intros Hv. cbv zeta.
  pose proof (S_b_pos S T z_b Hv) as Hx.
  split.
  - rewrite melt_velocity_R. field. lra.
  - pose proof bm_a_neg as Ha. pose proof (bm_c_pos S z_b Hv) as Hc.
    assert (HD : (0 <= bm_b S T z_b ^ 2 - 4 * bm_a * bm_c S z_b)%R) by nra.
    pose proof (quadratic_root bm_a (bm_b S T z_b) (bm_c S z_b)
                  (Rlt_not_eq _ _ Ha) HD) as Hq.
    rewrite basalmelting_T_b_eq.
    destruct (basalmelting_R S T z_b) as (_ & E & _).
    rewrite <- E in Hq. clear E Hx Ha Hc HD.
    set (x := bm_S_b (basalmelting S T z_b)) in *. clearbody x.
    assert (E : (IZR c_p * gamma_T * (T - freeze x z_b) * x
                 - (gamma_S * (S - x) * (L + IZR c_i * (freeze x z_b - IZR T_i))
                    - gamma_S * IZR c_i * y2 * S)
                 = - IZR c_p
                   * (bm_a * x ^ 2 + bm_b S T z_b * x + bm_c S z_b))%R)
      by (real_arith; field).
    rewrite Hq in E. lra.
Qed.

(** X6, at [S = 30], [T = -1.5], [z_b = -300]. *)
Lemma basalmelting_balances_witness :
  physically_valid 30 (-300) /\
  let m := (basalmelting 30 (-3 / 2) (-300))%R in
  (bm_v_b m * bm_S_b m = gamma_S * (30 - bm_S_b m) * IZR s_yr /\
   IZR c_p * gamma_T * (-3 / 2 - bm_T_b m) * bm_S_b m
   = gamma_S * (30 - bm_S_b m) * (L + IZR c_i * (bm_T_b m - IZR T_i))
     - gamma_S * IZR c_i * y2 * 30)%R.
Proof.
  assert (Hv : physically_valid 30 (-300)) by (unfold physically_valid; lra).
  split; [exact Hv|].
  exact (basalmelting_balances 30 (-3 / 2) (-300) Hv).
Defined.

(** ** The plume update, in exact arithmetic *)

Section PlumeUpdate.

Local Open Scope R_scope.

Lemma A_val : IZR A = 1600000000.
Proof. reflexivity. Qed.

Lemma V_dt_val : (V_dt : R) = 1600000.
Proof.
  unfold V_dt. cbn [fdiv of_int R_Arith].
  change (IZR V) with 16000000000. change (IZR dt) with 10000. lra.
Qed.

Lemma sin_alpha_pos : 0 < (sin_alpha : R).
Proof.
  unfold sin_alpha. cbn [np_sin np_arctan fdiv of_int R_Arith R_Trig].
  change (IZR (Z.abs z_g)) with 600. change (IZR l) with 80000.
  assert (H0 : 0 < atan (600 / 80000)).
  { rewrite <- atan_0. apply atan_increasing. lra. }
  pose proof (atan_bound (600 / 80000)) as [_ H1].
  pose proof PI_RGT_0.
  apply sin_gt_0; lra.
Qed.

Lemma Q_a_pos : 0 < (Q_a : R).
Proof.
  unfold Q_a, v_e. cbn [fmul of_int R_Arith]. rewrite A_val.
  pose proof sin_alpha_pos as Hs.
  assert (H : 0 < (E_0 : R) * u) by (real_arith; lra).
  set (s := (sin_alpha : R)) in *. set (e := (E_0 : R) * u) in *.
  clearbody s e. nra.
Qed.

(** The fields of a pass over [R], in terms of the boundary salinity. *)
Lemma plume_pass_R (S_a T_a Q_g z_b S T : R) :
  let p := plume_pass S_a T_a Q_g z_b (S, T) in
  let x := bm_S_b (basalmelting S T z_b) in
  p_S_b p = x /\ p_T_b p = freeze x z_b /\
  p_v_b p = gamma_S * (S - x) / x /\
  p_Q_m p = p_v_b p * IZR A /\
  p_Q p = - (Q_g + p_Q_m p + Q_a) /\
  p_S p = (Q_a * S_a + V_dt * S) / (V_dt - p_Q p) /\
  p_T p = (Q_a * T_a + Q_g * T_g + (p_Q_m p + IZR A * gamma_T) * p_T_b p
           + V_dt * T)
          / (V_dt - p_Q p + IZR A * gamma_T).
Proof. cbv zeta. repeat split. Qed.

(** The melt velocity per second is above [- gamma_S]. *)
Lemma p_v_b_lower (S_a T_a Q_g z_b S T : R) :
  physically_valid S z_b ->
  - gamma_S < p_v_b (plume_pass S_a T_a Q_g z_b (S, T)).
Proof.
  intros Hv.
  destruct (plume_pass_R S_a T_a Q_g z_b S T) as (_ & _ & -> & _).
  pose proof (S_b_pos S T z_b Hv) as Hx. pose proof gamma_S_pos as Hg.
  destruct Hv as [HS _].
  set (x := bm_S_b (basalmelting S T z_b)) in *.
  set (g := (gamma_S : R)) in *. clearbody x g.
  replace (g * (S - x) / x) with (g * (S * / x) - g) by (field; lra).
  assert (0 < S * / x)
    by (apply Rmult_lt_0_compat; [lra | apply Rinv_0_lt_compat; lra]).
  nra.
Qed.

(** The weights of the update: the melt flux is above [- gamma_S * A],
    which the volume term [V/dt] and the heat-exchange term
    [A * gamma_T] both outweigh. *)
Lemma weights_pos (S_a T_a Q_g z_b S T : R) :
  physically_valid S z_b ->
  let p := plume_pass S_a T_a Q_g z_b (S, T) in
  0 < V_dt + p_Q_m p /\ 0 < p_Q_m p + IZR A * gamma_T.
Proof.
  intros Hv. cbv zeta.
  pose proof (p_v_b_lower S_a T_a Q_g z_b S T Hv) as Hl.
  destruct (plume_pass_R S_a T_a Q_g z_b S T) as (_ & _ & _ & -> & _).
  rewrite V_dt_val, A_val.
  set (v := p_v_b (plume_pass S_a T_a Q_g z_b (S, T))) in *. clearbody v.
  revert Hl. real_arith. intros Hl. split; lra.
Qed.

(** Both denominators of the update are positive. *)
Lemma denominators_pos (S_a T_a Q_g z_b S T : R) :
  physically_valid S z_b -> 0 <= Q_g ->
  let p := plume_pass S_a T_a Q_g z_b (S, T) in
  0 < V_dt - p_Q p /\ 0 < V_dt - p_Q p + IZR A * gamma_T.
Proof.
  intros Hv HQ. cbv zeta.
  destruct (weights_pos S_a T_a Q_g z_b S T Hv) as [H1 H2].
  destruct (plume_pass_R S_a T_a Q_g z_b S T) as (_ & _ & _ & _ & -> & _).
  pose proof Q_a_pos. pose proof V_dt_val. split; lra.
Qed.

Lemma p_S_pos (S_a T_a Q_g z_b S T : R) :
  physically_valid S z_b -> 0 <= Q_g -> 0 <= S_a ->
  0 < p_S (plume_pass S_a T_a Q_g z_b (S, T)).
Proof.
  intros Hv HQ Ha.
  destruct (denominators_pos S_a T_a Q_g z_b S T Hv HQ) as [Hd _].
  destruct (plume_pass_R S_a T_a Q_g z_b S T) as (_ & _ & _ & _ & _ & -> & _).
  pose proof Q_a_pos as Hq. pose proof V_dt_val as HV. destruct Hv as [HS _].
  apply Rdiv_lt_0_compat; [|exact Hd].
  set (q := (Q_a : R)) in *. clearbody q. rewrite HV. nra.
Qed.

Lemma p_S_upper (S_a T_a Q_g z_b S T hi : R) :
  physically_valid S z_b -> 0 <= Q_g ->
  0 <= p_Q_m (plume_pass S_a T_a Q_g z_b (S, T)) ->
  S_a <= hi -> S <= hi ->
  p_S (plume_pass S_a T_a Q_g z_b (S, T)) <= hi.
Proof.
  intros Hv HQ Hm Ha Hs.
  destruct (denominators_pos S_a T_a Q_g z_b S T Hv HQ) as [Hd _].
  destruct (plume_pass_R S_a T_a Q_g z_b S T)
    as (_ & _ & _ & _ & EQ & -> & _).
  rewrite EQ in Hd |- *.
  pose proof Q_a_pos as Hq. pose proof V_dt_val as HV. destruct Hv as [HS _].
  set (m := p_Q_m (plume_pass S_a T_a Q_g z_b (S, T))) in *.
  set (q := (Q_a : R)) in *. clearbody m q. rewrite HV in Hd |- *.
  apply (Rmult_le_reg_r (1600000 - - (Q_g + m + q))); [exact Hd|].
  replace ((q * S_a + 1600000 * S) / (1600000 - - (Q_g + m + q))
           * (1600000 - - (Q_g + m + q)))
    with (q * S_a + 1600000 * S) by (field; lra).
  assert (0 <= q * (hi - S_a)) by (apply Rmult_le_pos; lra).
  assert (0 <= (Q_g + m) * hi) by (apply Rmult_le_pos; lra).
  lra.
Qed.

(** The new temperature is a mean of [T_a], [T_g], [T_b] and [T] with
    positive weights. *)
Lemma p_T_mean (S_a T_a Q_g z_b S T : R) :
  physically_valid S z_b -> 0 <= Q_g ->
  let p := plume_pass S_a T_a Q_g z_b (S, T) in
  let d := V_dt - p_Q p + IZR A * gamma_T in
  0 < d /\
  forall t, (p_T p - t) * d
            = Q_a * (T_a - t) + Q_g * (T_g - t)
              + (p_Q_m p + IZR A * gamma_T) * (p_T_b p - t) + V_dt * (T - t).
Proof.
  intros Hv HQ. cbv zeta.
  destruct (denominators_pos S_a T_a Q_g z_b S T Hv HQ) as [_ Hd].
  split; [exact Hd|]. intros t.
  destruct (plume_pass_R S_a T_a Q_g z_b S T)
    as (_ & _ & _ & _ & EQ & _ & ->).
  set (d := V_dt - p_Q (plume_pass S_a T_a Q_g z_b (S, T)) + IZR A * gamma_T)
    in *.
  assert (Ed : d = V_dt + Q_g + p_Q_m (plume_pass S_a T_a Q_g z_b (S, T))
                   + Q_a + IZR A * gamma_T) by (unfold d; rewrite EQ; ring).
  clearbody d. subst d. field. lra.
Qed.

Lemma p_T_upper (S_a T_a Q_g z_b S T hi : R) :
  physically_valid S z_b -> 0 <= Q_g ->
  T_a <= hi -> T_g <= hi ->
  p_T_b (plume_pass S_a T_a Q_g z_b (S, T)) <= hi -> T <= hi ->
  p_T (plume_pass S_a T_a Q_g z_b (S, T)) <= hi.
Proof.
  intros Hv HQ H1 H2 H3 H4.
  destruct (p_T_mean S_a T_a Q_g z_b S T Hv HQ) as [Hd E].
  specialize (E hi).
  destruct (weights_pos S_a T_a Q_g z_b S T Hv) as [_ Hw].
  pose proof Q_a_pos as Hq. pose proof V_dt_val as HV.
  set (p := plume_pass S_a T_a Q_g z_b (S, T)) in *.
  set (d := V_dt - p_Q p + IZR A * gamma_T) in *.
  set (wt := p_Q_m p + IZR A * gamma_T) in *.
  set (q := (Q_a : R)) in *. set (tb := p_T_b p) in *. set (t' := p_T p) in *.
  clearbody d wt q tb t'. rewrite HV in E.
  assert (q * (T_a - hi) <= 0) by nra.
  assert (Q_g * (T_g - hi) <= 0) by nra.
  assert (wt * (tb - hi) <= 0) by nra.
  assert ((t' - hi) * d <= 0) by lra.
  nra.
Qed.

Lemma p_T_lower (S_a T_a Q_g z_b S T lo : R) :
  physically_valid S z_b -> 0 <= Q_g ->
  lo <= T_a -> lo <= T_g ->
  lo <= p_T_b (plume_pass S_a T_a Q_g z_b (S, T)) -> lo <= T ->
  lo <= p_T (plume_pass S_a T_a Q_g z_b (S, T)).
Proof.
  intros Hv HQ H1 H2 H3 H4.
  destruct (p_T_mean S_a T_a Q_g z_b S T Hv HQ) as [Hd E].
  specialize (E lo).
  destruct (weights_pos S_a T_a Q_g z_b S T Hv) as [_ Hw].
  pose proof Q_a_pos as Hq. pose proof V_dt_val as HV.
  set (p := plume_pass S_a T_a Q_g z_b (S, T)) in *.
  set (d := V_dt - p_Q p + IZR A * gamma_T) in *.
  set (wt := p_Q_m p + IZR A * gamma_T) in *.
  set (q := (Q_a : R)) in *. set (tb := p_T_b p) in *. set (t' := p_T p) in *.
  clearbody d wt q tb t'. rewrite HV in E.
  assert (0 <= q * (T_a - lo)) by nra.
  assert (0 <= Q_g * (T_g - lo)) by nra.
  assert (0 <= wt * (tb - lo)) by nra.
  assert (0 <= (t' - lo) * d) by lra.
  nra.
Qed.

(** The boundary temperature of a pass is below the freezing temperature
    of fresh water. *)
Lemma p_T_b_upper (S_a T_a Q_g z_b S T : R) :
  physically_valid S z_b ->
  p_T_b (plume_pass S_a T_a Q_g z_b (S, T)) < freeze 0 z_b.
Proof.
  intros Hv.
  destruct (plume_pass_R S_a T_a Q_g z_b S T) as (_ & -> & _).
  pose proof (S_b_pos S T z_b Hv) as Hx. pose proof y1_neg as Hy.
  unfold freeze. cbn [fadd fmul R_Arith].
  set (y := (y1 : R)) in *. set (x := bm_S_b (basalmelting S T z_b)) in *.
  clearbody x y. nra.
Qed.

(** At or above the line where the melt velocity vanishes, the melt flux
    is not negative. *)
Lemma p_Q_m_nonneg (S_a T_a Q_g z_b S T : R) :
  physically_valid S z_b -> freeze S z_b - melt_offset <= T ->
  0 <= p_Q_m (plume_pass S_a T_a Q_g z_b (S, T)).
Proof.
  intros Hv HT.
  destruct (plume_pass_R S_a T_a Q_g z_b S T) as (_ & _ & Ev & -> & _).
  rewrite Ev, A_val.
  pose proof (S_b_pos S T z_b Hv) as Hx. pose proof gamma_S_pos as Hg.
  assert (Hle : bm_S_b (basalmelting S T z_b) <= S).
  { destruct (S_b_vs_S S T z_b Hv) as (Q1 & Q2 & _).
    destruct HT as [HT|HT].
    - apply Rlt_le, Q1, HT.
    - apply Req_le, Q2. symmetry. exact HT. }
  set (x := bm_S_b (basalmelting S T z_b)) in *.
  set (g := (gamma_S : R)) in *. clearbody x g.
  apply Rmult_le_pos; [|lra].
  apply Rmult_le_pos; [|apply Rlt_le, Rinv_0_lt_compat, Hx].
  apply Rmult_le_pos; lra.
Qed.

(** The loop invariant: the plume's salinity stays positive, and its
    temperature stays below any bound that holds for [T_a], [T_g] and the
    freezing temperature of fresh water. *)
Lemma plume_state_inv (S_a T_a Q_g z_b hi : R) (k : nat) :
  0 <= S_a -> 0 <= Q_g -> -244000 <= z_b ->
  T_a <= hi -> T_g <= hi -> freeze 0 z_b <= hi ->
  0 < (plume_state S_a T_a Q_g z_b k).1 /\
  (plume_state S_a T_a Q_g z_b k).2 <= hi.
Proof.
  intros Ha HQ Hz H1 H2 H3. induction k as [|k [IHS IHT]].
  - change (plume_state S_a T_a Q_g z_b 0) with (30, freeze 30 z_b).
    cbn [fst snd]. split; [lra|].
    pose proof y1_neg as Hy. revert H3. unfold freeze.
    cbn [fadd fmul R_Arith]. set (y := (y1 : R)) in *. clearbody y.
    intros H3. nra.
  - rewrite plume_state_S. cbn [fst snd].
    destruct (plume_state S_a T_a Q_g z_b k) as [S T]. cbn [fst snd] in *.
    assert (Hv : physically_valid S z_b) by (split; assumption).
    split; [apply p_S_pos; assumption|].
    apply p_T_upper; try assumption.
    pose proof (p_T_b_upper S_a T_a Q_g z_b S T Hv). lra.
Qed.

End PlumeUpdate.

(** X7: in exact arithmetic, for a physically valid plume state and a
    subglacial discharge [Q_g >= 0], one pass of the loop body divides by
    positive numbers only; the new salinity is positive when [S_a >= 0];
    the new temperature lies in every interval that contains [T_a], [T_g],
    the boundary temperature and the old temperature; and when the plume
    is at or above [freeze(S, z_b) - melt_offset] the new salinity stays
    below every bound on [S_a] and the old salinity. *)
Theorem plume_pass_bounds (S_a T_a Q_g z_b S T : R) :
  physically_valid S z_b ->
  (0 <= Q_g)%R ->
  let p := plume_pass S_a T_a Q_g z_b (S, T) in
  ((0 < V_dt - p_Q p /\ 0 < V_dt - p_Q p + IZR A * gamma_T) /\
   (0 <= S_a -> 0 < p_S p) /\
   (forall lo hi,
      lo <= T_a <= hi -> lo <= T_g <= hi -> lo <= p_T_b p <= hi ->
      lo <= T <= hi -> lo <= p_T p <= hi) /\
   (freeze S z_b - melt_offset <= T ->
    forall hi, S_a <= hi -> S <= hi -> p_S p <= hi))%R.
Proof.
  intros Hv HQ. cbv zeta.
  split; [exact (denominators_pos S_a T_a Q_g z_b S T Hv HQ)|].
  split; [intros Ha; apply p_S_pos; assumption|].
  split.
  - intros lo hi [? ?] [? ?] [? ?] [? ?]. split.
    + apply p_T_lower; assumption.
    + apply p_T_upper; assumption.
  - intros HT hi H1 H2. apply p_S_upper; try assumption.
    apply p_Q_m_nonneg; assumption.
Qed.

(** X7, at the starting state of the loops for [z_b = -300], with
    [Q_g = 70]. *)
Lemma plume_pass_bounds_witness :
  physically_valid 30 (-300) /\ (0 <= 70)%R /\
  let p := (plume_pass 35 2 70 (-300) (30, freeze 30 (-300)))%R in
  ((0 < V_dt - p_Q p /\ 0 < V_dt - p_Q p + IZR A * gamma_T) /\
   (0 <= 35 -> 0 < p_S p) /\
   (forall lo hi,
      lo <= 2 <= hi -> lo <= T_g <= hi -> lo <= p_T_b p <= hi ->
      lo <= freeze 30 (-300) <= hi -> lo <= p_T p <= hi) /\
   (freeze 30 (-300) - melt_offset <= freeze 30 (-300) ->
    forall hi, 35 <= hi -> 30 <= hi -> p_S p <= hi))%R.
Proof.
  assert (Hv : physically_valid 30 (-300)) by (unfold physically_valid; lra).
  assert (HQ : (0 <= 70)%R) by lra.
  split; [exact Hv|]. split; [exact HQ|].
  exact (plume_pass_bounds 35 2 70 (-300) 30 (freeze 30 (-300))%R Hv HQ).
Defined.

(** X8: in exact arithmetic, a state is a fixed point of the loop body
    exactly when the salt balance
    [Q_a * (S_a - S) = (Q_g + Q_m) * S] and the heat balance
    [Q_a * (T_a - T) + Q_g * (T_g - T) + (Q_m + A * gamma_T) * (T_b - T) = 0]
    hold; neither the time step [dt] nor the volume [V] occurs in them. *)
Theorem steady_state (S_a T_a Q_g z_b S T : R) :
  physically_valid S z_b ->
  (0 <= Q_g)%R ->
  let p := plume_pass S_a T_a Q_g z_b (S, T) in
  plume_update S_a T_a Q_g z_b (S, T) = (S, T)
  <-> (Q_a * (S_a - S) = (Q_g + p_Q_m p) * S /\
       Q_a * (T_a - T) + Q_g * (T_g - T)
       + (p_Q_m p + IZR A * gamma_T) * (p_T_b p - T) = 0)%R.
Proof.
  intros Hv HQ. cbv zeta. unfold plume_update.
  destruct (denominators_pos S_a T_a Q_g z_b S T Hv HQ) as [Hd _].
  destruct (p_T_mean S_a T_a Q_g z_b S T Hv HQ) as [Hd' E].
  specialize (E T).
  assert (ES : ((p_S (plume_pass S_a T_a Q_g z_b (S, T)) - S)
                * (V_dt - p_Q (plume_pass S_a T_a Q_g z_b (S, T)))
                = Q_a * (S_a - S)
                  - (Q_g + p_Q_m (plume_pass S_a T_a Q_g z_b (S, T))) * S)%R).
  { destruct (plume_pass_R S_a T_a Q_g z_b S T)
      as (_ & _ & _ & _ & EQ & ES & _).
    rewrite ES. rewrite EQ in Hd |- *. field. lra. }
  set (p := plume_pass S_a T_a Q_g z_b (S, T)) in *.
  set (dS := (V_dt - p_Q p)%R) in *.
  set (dT := (V_dt - p_Q p + IZR A * gamma_T)%R) in *.
  set (m := p_Q_m p) in *. set (tb := p_T_b p) in *.
  set (s' := p_S p) in *. set (t' := p_T p) in *.
  set (w := (m + IZR A * gamma_T)%R) in *.
  clearbody dS dT m tb s' t' w. clear p.
  replace (V_dt * (T - T))%R with 0%R in E by ring.
  split.
  - intros [= -> ->]. split; nra.
  - intros [H1 H2].
    assert (s' = S) by nra. assert (t' = T) by nra. congruence.
Qed.

(** X8, at the starting state of the loops for [z_b = -300], with
    [Q_g = 70]. *)
Lemma steady_state_witness :
  physically_valid 30 (-300) /\ (0 <= 70)%R /\
  let p := (plume_pass 35 2 70 (-300) (30, freeze 30 (-300)))%R in
  (plume_update 35 2 70 (-300) (30, freeze 30 (-300))
   = (30, freeze 30 (-300)))%R
  <-> (Q_a * (35 - 30) = (70 + p_Q_m p) * 30 /\
       Q_a * (2 - freeze 30 (-300)) + 70 * (T_g - freeze 30 (-300))
       + (p_Q_m p + IZR A * gamma_T) * (p_T_b p - freeze 30 (-300)) = 0)%R.
Proof.
  assert (Hv : physically_valid 30 (-300)) by (unfold physically_valid; lra).
  assert (HQ : (0 <= 70)%R) by lra.
  split; [exact Hv|]. split; [exact HQ|].
  exact (steady_state 35 2 70 (-300) 30 (freeze 30 (-300))%R Hv HQ).
Defined.

(** X9: in exact arithmetic, for an ambient salinity [S_a >= 0], a
    discharge [Q_g >= 0] and a depth above 244 km, every pass of the loops
    keeps the plume's salinity and the boundary salinity positive, the
    boundary temperature below the freezing temperature of fresh water,
    and the plume's temperature at or below the largest of [T_a], [T_g]
    and that freezing temperature: this holds for every entry of the
    arrays of [boxmodel], and for the values of [sens_study]. *)
Theorem loops_keep_salinity_positive {NF : NaN R} (S_a T_a Q_g z_b : R) :
  (0 <= S_a)%R -> (0 <= Q_g)%R -> (-244000 <= z_b)%R ->
  let hi := Rmax (Rmax T_a T_g) (freeze 0%R z_b) in
  let r := boxmodel S_a T_a Q_g z_b in
  (Forall (fun s => 0 < s)%R (box_S r) /\
   Forall (fun s => 0 < s)%R (box_S_b r) /\
   Forall (fun t => t <= hi)%R (box_T r) /\
   Forall (fun t => t < freeze 0 z_b)%R (box_T_b r)) /\
  exists r' : sens_result R,
    sens_study S_a T_a Q_g z_b = Some r' /\
    (0 < sens_S r' /\ 0 < sens_S_b r' /\ sens_T r' <= hi /\
     sens_T_b r' < freeze 0 z_b)%R.
Proof.
  intros Ha HQ Hz hi.
  assert (H1 : (T_a <= hi)%R)
    by (unfold hi; eapply Rle_trans; [|apply Rmax_l]; apply Rmax_l).
  assert (H2 : (T_g <= hi)%R)
    by (unfold hi; eapply Rle_trans; [|apply Rmax_l]; apply Rmax_r).
  assert (H3 : (freeze 0 z_b <= hi)%R) by (unfold hi; apply Rmax_r).
  clearbody hi.
  pose proof (fun k => plume_state_inv S_a T_a Q_g z_b hi k Ha HQ Hz H1 H2 H3)
    as Inv.
  assert (P : forall k,
             let p := plume_pass S_a T_a Q_g z_b
                        (plume_state S_a T_a Q_g z_b k) in
             (0 < p_S p /\ 0 < p_S_b p /\ p_T p <= hi
              /\ p_T_b p < freeze 0 z_b)%R).
  { intros k. cbv zeta.
    destruct (Inv (S k)) as [I1 I2]. rewrite plume_state_S in I1, I2.
    cbn [fst snd] in I1, I2.
    destruct (Inv k) as [J1 _].
    destruct (plume_state S_a T_a Q_g z_b k) as [S T]. cbn [fst snd] in J1.
    assert (Hv : physically_valid S z_b) by (split; assumption).
    split; [exact I1|]. split; [|split; [exact I2|]].
    - destruct (plume_pass_R S_a T_a Q_g z_b S T) as (-> & _).
      apply S_b_pos, Hv.
    - apply p_T_b_upper, Hv. }
  cbv zeta. split.
  - rewrite boxmodel_tabulated.
    cbn [box_S box_S_b box_T box_T_b].
    rewrite !Forall_fmap, !Forall_seq. unfold compose.
    repeat split; intros j _; apply (P j).
  - destruct (@N_succ) as [m Hm].
    rewrite (sens_study_pass S_a T_a Q_g z_b m Hm).
    eexists. split; [reflexivity|].
    cbn [sens_S sens_S_b sens_T sens_T_b]. apply (P m).
Qed.

(** X9, for [S_a = 35], [T_a = 2], [Q_g = 70] and [z_b = -300]. *)
Lemma loops_keep_salinity_positive_witness :
  (0 <= 35)%R /\ (0 <= 70)%R /\ (-244000 <= -300)%R /\
  let hi := Rmax (Rmax 2 T_g) (freeze 0 (-300))%R in
  let r := (boxmodel (NF := {| np_nan := 0 |}) 35 2 70 (-300))%R in
  (Forall (fun s => 0 < s)%R (box_S r) /\
   Forall (fun s => 0 < s)%R (box_S_b r) /\
   Forall (fun t => t <= hi)%R (box_T r) /\
   Forall (fun t => t < freeze 0 (-300))%R (box_T_b r)) /\
  exists r' : sens_result R,
    (sens_study 35 2 70 (-300))%R = Some r' /\
    (0 < sens_S r' /\ 0 < sens_S_b r' /\ sens_T r' <= hi /\
     sens_T_b r' < freeze 0 (-300))%R.
Proof.
  assert (Ha : (0 <= 35)%R) by lra.
  assert (HQ : (0 <= 70)%R) by lra.
  assert (Hz : (-244000 <= -300)%R) by lra.
  split; [exact Ha|]. split; [exact HQ|]. split; [exact Hz|].
  exact (loops_keep_salinity_positive (NF := {| np_nan := 0%R |})
           35 2 70 (-300) Ha HQ Hz).
Defined.

(** ** Not-a-number inputs, in binary64 arithmetic *)

Section NaNArithmetic.

Local Open Scope float_scope.

Lemma nan_add_l x : nan + x = nan.
Proof. apply Prim2SF_inj. rewrite add_spec. reflexivity. Qed.

Lemma nan_add_r x : x + nan = nan.
Proof.
  apply Prim2SF_inj. rewrite add_spec. destruct (Prim2SF x); reflexivity.
Qed.

Lemma nan_sub_l x : nan - x = nan.
Proof. apply Prim2SF_inj. rewrite sub_spec. reflexivity. Qed.

Lemma nan_sub_r x : x - nan = nan.
Proof.
  apply Prim2SF_inj. rewrite sub_spec. destruct (Prim2SF x); reflexivity.
Qed.

Lemma nan_mul_l x : nan * x = nan.
Proof. apply Prim2SF_inj. rewrite mul_spec. reflexivity. Qed.

Lemma nan_mul_r x : x * nan = nan.
Proof.
  apply Prim2SF_inj. rewrite mul_spec. destruct (Prim2SF x); reflexivity.
Qed.

Lemma nan_div_l x : nan / x = nan.
Proof. apply Prim2SF_inj. rewrite div_spec. reflexivity. Qed.

Lemma nan_div_r x : x / nan = nan.
Proof.
  apply Prim2SF_inj. rewrite div_spec. destruct (Prim2SF x); reflexivity.
Qed.

Lemma nan_opp : - nan = nan.
Proof. reflexivity. Qed.

Lemma nan_sqrt : PrimFloat.sqrt nan = nan.
Proof. reflexivity. Qed.

Lemma nan_leb_l x : (nan <=? x) = false.
Proof. rewrite leb_spec. reflexivity. Qed.

Lemma nan_leb_r x : (x <=? nan) = false.
Proof. rewrite leb_spec. destruct (Prim2SF x); reflexivity. Qed.

End NaNArithmetic.

Create Rewrite HintDb nan.

#[local] Hint Rewrite nan_add_l nan_add_r nan_sub_l nan_sub_r nan_mul_l
  nan_mul_r nan_div_l nan_div_r nan_opp nan_sqrt : nan.

(** Rewrites a float expression with a not-a-number operand. *)
Ltac nan_arith :=
  cbn [fadd fsub fmul fdiv fneg fpow2 np_sqrt float_Arith];
  autorewrite with nan.

Section NaNPropagation.

Context {TF : Trig PrimFloat.float}.

Lemma basalmelting_nan (S T z_b : PrimFloat.float) :
  S = nan \/ T = nan \/ z_b = nan ->
  basalmelting S T z_b = melt_all nan.
Proof.
  intros H.
  assert (Hb : bm_b S T z_b = nan).
  { unfold bm_b. destruct H as [->|[->| ->]]; nan_arith; reflexivity. }
  unfold basalmelting, melt_all, bm_disc. cbv zeta. rewrite Hb.
  nan_arith. reflexivity.
Qed.

Lemma plume_pass_nan_state (S_a T_a Q_g z_b S T : PrimFloat.float) :
  S = nan \/ T = nan \/ z_b = nan ->
  plume_pass S_a T_a Q_g z_b (S, T) = pass_all nan.
Proof.
  intros H. unfold plume_pass, pass_all. cbn [fst snd].
  rewrite (basalmelting_nan S T z_b H). cbn [bm_S_b bm_T_b melt_all].
  nan_arith. reflexivity.
Qed.

Lemma plume_pass_nan_input (S_a T_a Q_g z_b S T : PrimFloat.float) :
  S_a = nan \/ T_a = nan \/ Q_g = nan ->
  let p := plume_pass S_a T_a Q_g z_b (S, T) in
  p_S p = nan \/ p_T p = nan.
Proof.
  intros H. cbv zeta. unfold plume_pass. cbn [p_S p_T fst snd].
  destruct H as [->|[->| ->]]; nan_arith; auto.
Qed.

(** Once an argument is not a number, every pass but the first computes
    nothing else. *)
Lemma pass_at_nan (S_a T_a Q_g z_b : PrimFloat.float) k :
  S_a = nan \/ T_a = nan \/ Q_g = nan \/ z_b = nan ->
  plume_pass S_a T_a Q_g z_b (plume_state S_a T_a Q_g z_b (S k))
  = pass_all nan.
Proof.
  intros H.
  assert (P : let st := plume_state S_a T_a Q_g z_b (S k) in
              st.1 = nan \/ st.2 = nan \/ z_b = nan).
  { cbv zeta. induction k as [|k IH].
    - rewrite plume_state_S. cbn [fst snd].
      destruct (plume_state S_a T_a Q_g z_b 0) as [S0 T0].
      destruct H as [H|[H|[H|H]]]; [| | |auto];
        (destruct (plume_pass_nan_input S_a T_a Q_g z_b S0 T0) as [E|E];
         [tauto|auto|auto]).
    - rewrite plume_state_S.
      destruct (plume_state S_a T_a Q_g z_b (S k)) as [S1 T1].
      cbn [fst snd] in IH. rewrite (plume_pass_nan_state _ _ _ _ _ _ IH).
      cbn [fst snd p_S pass_all]. auto. }
  cbv zeta in P.
  destruct (plume_state S_a T_a Q_g z_b (S k)) as [S1 T1].
  apply plume_pass_nan_state, P.
Qed.

Lemma N_succ_succ : exists m, N = S (S m).
Proof. exists 198. reflexivity. Qed.

Lemma sens_study_nan (S_a T_a Q_g z_b : PrimFloat.float) :
  S_a = nan \/ T_a = nan \/ Q_g = nan \/ z_b = nan ->
  sens_study S_a T_a Q_g z_b = Some (sens_all nan).
Proof.
  intros H. destruct N_succ_succ as [m Hm].
  rewrite (sens_study_pass S_a T_a Q_g z_b (S m) Hm).
  rewrite (pass_at_nan S_a T_a Q_g z_b m H).
  cbn [pass_all p_v_b p_S p_T p_S_b p_T_b p_Q_m p_Q sens_all].
  nan_arith. reflexivity.
Qed.

Lemma grid_point_nan (lo hi : PrimFloat.float) X j :
  lo = nan \/ hi = nan -> grid_point lo hi X j = nan.
Proof.
  unfold grid_point. intros [->| ->]; nan_arith; reflexivity.
Qed.

Lemma freeze_nan (S z_b : PrimFloat.float) :
  S = nan \/ z_b = nan -> freeze S z_b = nan.
Proof.
  unfold freeze. cbv zeta. intros [->| ->]; nan_arith; reflexivity.
Qed.

End NaNPropagation.

(** X10: in binary64 arithmetic, [basalmelting] returns not-a-number under
    every key as soon as one of its arguments is not a number. *)
Theorem basalmelting_propagates_nan (S T z_b : PrimFloat.float) :
  S = PrimFloat.nan \/ T = PrimFloat.nan \/ z_b = PrimFloat.nan ->
  basalmelting S T z_b = melt_all PrimFloat.nan.
Proof. apply basalmelting_nan. Qed.

(** X10, with a temperature that is not a number. *)
Lemma basalmelting_propagates_nan_witness :
  (of_int 30 = PrimFloat.nan \/ PrimFloat.nan = PrimFloat.nan
   \/ of_int (-300) = PrimFloat.nan) /\
  basalmelting (of_int 30) PrimFloat.nan (of_int (-300))
  = melt_all PrimFloat.nan.
Proof.
  assert (H : of_int 30 = PrimFloat.nan \/ PrimFloat.nan = PrimFloat.nan
              \/ of_int (-300) = PrimFloat.nan)
    by (right; left; reflexivity).
  split; [exact H|].
  exact (basalmelting_propagates_nan (of_int 30) PrimFloat.nan
           (of_int (-300)) H).
Defined.





(** ** The arrays of [boxmodel] and the grid of [variation] *)

(** X13: in the arrays [boxmodel] returns, the boundary temperature is the
    freezing temperature at the boundary salinity, the outflow is
    [-(Q_g + Q_m + Q_a)], and each entry after the first is what one pass
    of the loop body computes from the salinity and the temperature of the
    entry before it. *)
Theorem boxmodel_recurrence
  {F : Type} {AF : Arith F} {TF : Trig F} {NF : NaN F} (S_a T_a Q_g z_b : F) :
  let r := boxmodel S_a T_a Q_g z_b in
  box_T_b r = (fun s => freeze s z_b) <$> box_S_b r /\
  box_Q_out r = (fun q => fneg (fadd (fadd Q_g q) Q_a)) <$> box_Q_m r /\
  forall i s t,
    S i < N -> box_S r !! i = Some s -> box_T r !! i = Some t ->
    let p := plume_pass S_a T_a Q_g z_b (s, t) in
    box_v_b r !! S i = Some (fmul (p_v_b p) (of_int s_yr)) /\
    box_S r !! S i = Some (p_S p) /\ box_T r !! S i = Some (p_T p) /\
    box_S_b r !! S i = Some (p_S_b p) /\ box_T_b r !! S i = Some (p_T_b p) /\
    box_Q_m r !! S i = Some (p_Q_m p) /\ box_Q_out r !! S i = Some (p_Q p).
Proof.
  cbv zeta. split; [|split].
  - rewrite boxmodel_tabulated. cbn [box_T_b box_S_b].
    rewrite <- list_fmap_compose. reflexivity.
  - rewrite boxmodel_tabulated. cbn [box_Q_out box_Q_m].
    rewrite <- list_fmap_compose. reflexivity.
  - intros i s t Hi HS HT.
    assert (Hi' : i < N) by lia.
    destruct (boxmodel_entries S_a T_a Q_g z_b i Hi')
      as (_ & ES & ET & _).
    cbv zeta in ES, ET.
    replace (s, t) with (plume_state S_a T_a Q_g z_b (S i))
      by (rewrite plume_state_S; congruence).
    exact (boxmodel_entries S_a T_a Q_g z_b (S i) Hi).
Qed.

(** X14: in exact arithmetic, for [lo < hi] the [X] samples
    [lo + j * (hi - lo) / X], [j < X], that [variation] takes along each
    axis start at [lo], are [(hi - lo) / X] apart and stay strictly below
    [hi]: the upper bounds [S_top] and [T_top] are never sampled. *)
Theorem grid_half_open (lo hi : R) (X j : nat) :
  (lo < hi)%R -> j < X ->
  (grid_point lo hi X 0 = lo /\
   lo <= grid_point lo hi X j < hi /\
   grid_point lo hi X (S j) - grid_point lo hi X j
   = (hi - lo) / IZR (Z.of_nat X))%R.
Proof.
  intros Hlt Hj. unfold grid_point. cbn [fadd fsub fmul fdiv of_int R_Arith].
  assert (Ha : (0 <= IZR (Z.of_nat j))%R) by (apply IZR_le; lia).
  assert (Hb : (IZR (Z.of_nat j) < IZR (Z.of_nat X))%R) by (apply IZR_lt; lia).
  assert (Hs : IZR (Z.of_nat (S j)) = (IZR (Z.of_nat j) + 1)%R)
    by (rewrite Nat2Z.inj_succ, succ_IZR; reflexivity).
  rewrite Hs. change (Z.of_nat 0) with 0%Z.
  set (a := IZR (Z.of_nat j)) in *. set (b := IZR (Z.of_nat X)) in *.
  clearbody a b.
  assert (Hb0 : (0 < b)%R) by lra.
  assert (Hi : (0 < / b)%R) by (apply Rinv_0_lt_compat, Hb0).
  assert (Hr : (a * / b < 1)%R).
  { apply (Rmult_lt_reg_r b); [exact Hb0|].
    replace (a * / b * b)%R with a by (field; lra). lra. }
  assert (Hr0 : (0 <= a * / b)%R) by (apply Rmult_le_pos; lra).
  split; [field; lra|]. split.
  - replace (a * (hi - lo) / b)%R with (a * / b * (hi - lo))%R
      by (field; lra).
    split; nra.
  - field. lra.
Qed.

(** X14, for the salinities between 30 and 35 on a grid of 50. *)
Lemma grid_half_open_witness :
  (30 < 35)%R /\ 49 < 50 /\
  (grid_point 30 35 50 0 = 30 /\
   30 <= grid_point 30 35 50 49 < 35 /\
   grid_point 30 35 50 (S 49) - grid_point 30 35 50 49
   = (35 - 30) / IZR (Z.of_nat 50))%R.
Proof.
  assert (H1 : (30 < 35)%R) by lra.
  assert (H2 : 49 < 50) by lia.
  split; [exact H1|]. split; [exact H2|].
  exact (grid_half_open 30 35 50 49 H1 H2).
Defined.
